(** * Stock and price reconciliation for the seller APIs

    A shallow embedding of [seller.py] (single-store marketplace) and
    [market.py] (multi-campaign marketplace): the text helpers
    ([price_conversion], Python's [int] on text), the chunker [divide],
    the total-count paginator [get_offer_ids] and the two reconcilers
    [create_stocks] and [create_prices].

    Python [str] values are byte strings in UTF-8 ([String.string]).  The
    characters [split], [re.sub] and the comparisons look for (['.'],
    ['0'..'9'], the sentinels) are ASCII and no byte of a multi-byte UTF-8
    sequence is, so there working on bytes gives the same answers as working
    on code points; [int], which also reads the decimal digits and blanks
    outside ASCII, works on the decoded code points.  Integers are [Z].
    The caller's [offer_ids] list is one mutable object: the reconcilers run
    in a state-and-exception monad whose state is the content of that
    object. *)

From Stdlib Require Import String Ascii List ZArith Lia Bool Arith Permutation.
Import ListNotations.

Local Open Scope string_scope.
Local Open Scope list_scope.
Local Open Scope Z_scope.

(** ** Python text primitives *)

Module PyText.

Definition is_digit (c : ascii) : bool :=
  (48 <=? nat_of_ascii c)%nat && (nat_of_ascii c <=? 57)%nat.

Definition digit_val (c : ascii) : Z := Z.of_nat (nat_of_ascii c) - 48.

(** The ASCII blanks [int] skips at both ends of its argument: tab, line
    feed, vertical tab, form feed, carriage return and space. *)
Definition is_space (c : ascii) : bool :=
  let n := nat_of_ascii c in
  ((9 <=? n)%nat && (n <=? 13)%nat) || (n =? 32)%nat.

(** [s.split(sep)] for a one-character separator: the pieces between the
    occurrences of [sep]; never the empty list. *)
Fixpoint split (sep : ascii) (s : string) : list string :=
  match s with
  | EmptyString => [EmptyString]
  | String c r =>
      if Ascii.eqb c sep then EmptyString :: split sep r
      else match split sep r with
           | [] => [String c EmptyString]
           | p :: ps => String c p :: ps
           end
  end.

(** [re.sub("[^0-9]", "", s)]: every character outside ['0'..'9'] is
    deleted. *)
Fixpoint sub_non_digits (s : string) : string :=
  match s with
  | EmptyString => EmptyString
  | String c r =>
      if is_digit c then String c (sub_non_digits r) else sub_non_digits r
  end.

Fixpoint lstrip (l : list ascii) : list ascii :=
  match l with
  | [] => []
  | c :: r => if is_space c then lstrip r else l
  end.

Fixpoint rstrip (l : list ascii) : list ascii :=
  match l with
  | [] => []
  | c :: r =>
      match rstrip r with
      | [] => if is_space c then [] else [c]
      | r' => c :: r'
      end
  end.

(** The digit part of an integer literal in base 10: groups of digits, one
    underscore allowed between two digits.  [seen] tells that the previous
    character was a digit. *)
Fixpoint digits_us (acc : Z) (seen : bool) (l : list ascii) : option Z :=
  match l with
  | [] => if seen then Some acc else None
  | c :: r =>
      if is_digit c then digits_us (10 * acc + digit_val c) true r
      else if Ascii.eqb c "_"%char then
             if seen then digits_us acc false r else None
      else None
  end.

(** The code points of a text held in UTF-8; [None] when the bytes are not
    the encoding of any text. *)
Definition is_cont (b : ascii) : bool :=
  ((128 <=? N_of_ascii b) && (N_of_ascii b <? 192))%N.

Definition cont_bits (b : ascii) : N := (N_of_ascii b - 128)%N.

Fixpoint utf8_decode (l : list ascii) : option (list N) :=
  match l with
  | [] => Some []
  | b0 :: r0 =>
      let n0 := N_of_ascii b0 in
      if (n0 <? 128)%N then option_map (cons n0) (utf8_decode r0)
      else if (n0 <? 194)%N then None
      else if (n0 <? 224)%N then
        match r0 with
        | b1 :: r1 =>
            if is_cont b1
            then option_map (cons ((n0 - 192) * 64 + cont_bits b1)%N)
                            (utf8_decode r1)
            else None
        | _ => None
        end
      else if (n0 <? 240)%N then
        match r0 with
        | b1 :: b2 :: r2 =>
            let cp := ((n0 - 224) * 4096 + cont_bits b1 * 64 + cont_bits b2)%N in
            if is_cont b1 && is_cont b2 && (2048 <=? cp)%N &&
               negb ((55296 <=? cp) && (cp <=? 57343))%N
            then option_map (cons cp) (utf8_decode r2)
            else None
        | _ => None
        end
      else if (n0 <? 245)%N then
        match r0 with
        | b1 :: b2 :: b3 :: r3 =>
            let cp := ((n0 - 240) * 262144 + cont_bits b1 * 4096 +
                       cont_bits b2 * 64 + cont_bits b3)%N in
            if is_cont b1 && is_cont b2 && is_cont b3 &&
               (65536 <=? cp)%N && (cp <=? 1114111)%N
            then option_map (cons cp) (utf8_decode r3)
            else None
        | _ => None
        end
      else None
  end.

(** The blanks outside ASCII ([str.isspace], Unicode 14). *)
Definition unicode_spaces : list N :=
  [133; 160; 5760; 8192; 8193; 8194; 8195; 8196; 8197; 8198; 8199; 8200;
   8201; 8202; 8232; 8233; 8239; 8287; 12288]%N.

Definition unicode_space (cp : N) : bool := existsb (N.eqb cp) unicode_spaces.

(** The decimal digits of Unicode 14 come in runs of ten, from the digit 0
    to the digit 9; these are the code points of the zeros. *)
Definition decimal_runs : list N :=
  [48; 1632; 1776; 1984; 2406; 2534; 2662; 2790; 2918; 3046; 3174; 3302;
   3430; 3558; 3664; 3792; 3872; 4160; 4240; 6112; 6160; 6470; 6608; 6784;
   6800; 6992; 7088; 7232; 7248; 42528; 43216; 43264; 43472; 43504; 43600;
   44016; 65296; 66720; 68912; 69734; 69872; 69942; 70096; 70384; 70736;
   70864; 71248; 71360; 71472; 71904; 72016; 72784; 73040; 73120; 92768;
   92864; 93008; 120782; 120792; 120802; 120812; 120822; 123200; 123632;
   125264; 130032]%N.

(** The value of a code point as a decimal digit, if it is one. *)
Definition decimal (cp : N) : option N :=
  option_map (fun zero => (cp - zero)%N)
             (find (fun zero => (zero <=? cp) && (cp <=? zero + 9))%N decimal_runs).


(** What [int] does to its text before reading it: an ASCII character
    stays, a blank from outside ASCII becomes a space, a decimal digit from
    outside ASCII becomes the ASCII digit of its value; with any other
    character there is no literal. *)
Fixpoint to_ascii_text (cps : list N) : option (list ascii) :=
  match cps with
  | [] => Some []
  | cp :: r =>
      if (cp <? 127)%N then option_map (cons (ascii_of_N cp)) (to_ascii_text r)
      else if unicode_space cp
      then option_map (cons " "%char) (to_ascii_text r)
      else match decimal cp with
           | Some d => option_map (cons (ascii_of_N (48 + d))) (to_ascii_text r)
           | None => None
           end
  end.

(** The default of [sys.get_int_max_str_digits()]: a literal with more
    digits is refused. *)
Definition max_str_digits : Z := 4300.

Definition digit_count (l : list ascii) : Z :=
  Z.of_nat (length (filter is_digit l)).

(** The digits of a literal, within the limit. *)
Definition literal (l : list ascii) : option Z :=
  match digits_us 0 false l with
  | Some z => if digit_count l <=? max_str_digits then Some z else None
  | None => None
  end.

(** The literal in ASCII: blanks stripped at both ends, an optional sign,
    then the digits. *)
Definition ascii_int (l : list ascii) : option Z :=
  match lstrip (rstrip l) with
  | c :: r =>
      if Ascii.eqb c "-"%char then option_map Z.opp (literal r)
      else if Ascii.eqb c "+"%char then literal r
      else literal (c :: r)
  | [] => None
  end.

(** [int(s)] for a text [s].  [None] stands for the [ValueError] Python
    raises. *)
Definition int (s : string) : option Z :=
  match utf8_decode (list_ascii_of_string s) with
  | Some cps =>
      match to_ascii_text cps with
      | Some l => ascii_int l
      | None => None
      end
  | None => None
  end.


(** The value of a run of decimal digits, most significant first. *)
Definition digits_value (s : string) : Z :=
  fold_left (fun acc c => 10 * acc + digit_val c) (list_ascii_of_string s) 0.

Definition all_digits (s : string) : bool :=
  forallb is_digit (list_ascii_of_string s).

Definition has_digit (s : string) : bool :=
  existsb is_digit (list_ascii_of_string s).

(** The text before the first occurrence of [sep] (all of it without one). *)
Fixpoint before_first (sep : ascii) (s : string) : string :=
  match s with
  | EmptyString => EmptyString
  | String c r =>
      if Ascii.eqb c sep then EmptyString else String c (before_first sep r)
  end.

End PyText.

(** ** [price_conversion] (seller.py) *)

Definition price_conversion (price : string) : string :=
  PyText.sub_non_digits (hd EmptyString (PyText.split "."%char price)).

(** The integer [market.py] stores as the price: [int(price_conversion(p))]. *)
Definition price_value (price : string) : option Z :=
  PyText.int (price_conversion price).

(** The price parser as the specification words it: the text before the first
    ['.'], every character but the ASCII digits deleted, the rest read in
    base 10; no value when no digit is left. *)
Definition parse_spec (priceText : string) : option Z :=
  let digits := PyText.sub_non_digits (PyText.before_first "."%char priceText) in
  match digits with
  | EmptyString => None
  | _ => Some (PyText.digits_value digits)
  end.

(** ** Exceptions and the shared [offer_ids] object *)

(** The only exception the modelled code raises is [ValueError]: from [int]
    on text that is no integer literal, from [range] with step 0 and from
    [list.remove] of an absent element. *)
Inductive exn : Type := ValueError.

Inductive result (A : Type) : Type :=
| Ok (a : A)
| Raise (e : exn).
Arguments Ok {A} a.
Arguments Raise {A} e.

Definition of_option {A : Type} (o : option A) : result A :=
  match o with
  | Some a => Ok a
  | None => Raise ValueError
  end.

(** A computation that may read and update the list object bound to
    [offer_ids] and may raise. *)
Definition M (A : Type) : Type := list string -> result (A * list string).

Definition ret {A : Type} (a : A) : M A := fun ids => Ok (a, ids).

Definition bind {A B : Type} (m : M A) (k : A -> M B) : M B :=
  fun ids =>
    match m ids with
    | Ok (a, ids') => k a ids'
    | Raise e => Raise e
    end.

Definition lift {A : Type} (r : result A) : M A :=
  fun ids =>
    match r with
    | Ok a => Ok (a, ids)
    | Raise e => Raise e
    end.

Declare Scope py_scope.
Delimit Scope py_scope with py.
Notation "x <- m ;; k" := (bind m (fun x => k))
  (at level 61, m at next level, right associativity) : py_scope.
Notation "m ;; k" := (bind m (fun _ => k))
  (at level 61, right associativity) : py_scope.

(** [x in offer_ids] *)
Definition contains (x : string) : M bool :=
  fun ids => Ok (existsb (String.eqb x) ids, ids).

(** [l.remove(x)] on a Python list: the first element equal to [x] goes,
    [None] (a [ValueError]) when there is none. *)
Fixpoint list_remove (x : string) (l : list string) : option (list string) :=
  match l with
  | [] => None
  | y :: r =>
      if String.eqb y x then Some r
      else option_map (cons y) (list_remove x r)
  end.

(** [offer_ids.remove(x)] *)
Definition remove (x : string) : M unit :=
  fun ids =>
    match list_remove x ids with
    | Some ids' => Ok (tt, ids')
    | None => Raise ValueError
    end.

(** The current content of [offer_ids], as [for offer_id in offer_ids] reads
    it. *)
Definition current : M (list string) := fun ids => Ok (ids, ids).

(** ** Supplier records *)

(** One row of the supplier's sheet; the fields are the columns
    ["Код"], ["Количество"] and ["Цена"], all text. *)
Record watch : Type := {
  Kod : string;
  Kolichestvo : string;
  Tsena : string
}.

(** The stock heuristic of [create_stocks]: [">10"] is 100, ["1"] is 0, any
    other text goes through [int]. *)
Definition stock_count (count : string) : result Z :=
  if String.eqb count ">10" then Ok 100
  else if String.eqb count "1" then Ok 0
  else of_option (PyText.int count).

(** ** The reconcilers, generic in the dictionary they build *)

Section Reconcile.
Local Open Scope py_scope.
Context {S P : Type}.
(** the stock entry built for an offer id and a count *)
Variable stock_entry : string -> Z -> S.
(** the price entry built for a record; it may raise *)
Variable price_entry : watch -> result P.

(** The first loop of [create_stocks]. *)
Fixpoint stocks_loop (watch_remnants : list watch) (stocks : list S)
  : M (list S) :=
  match watch_remnants with
  | [] => ret stocks
  | w :: rest =>
      found <- contains (Kod w) ;;
      if found then
        stock <- lift (stock_count (Kolichestvo w)) ;;
        remove (Kod w) ;;
        stocks_loop rest (stocks ++ [stock_entry (Kod w) stock])
      else stocks_loop rest stocks
  end.

Definition create_stocks_with (watch_remnants : list watch) : M (list S) :=
  stocks <- stocks_loop watch_remnants [] ;;
  offer_ids <- current ;;
  ret (stocks ++ map (fun offer_id => stock_entry offer_id 0) offer_ids).

(** The loop of [create_prices]. *)
Fixpoint prices_loop (watch_remnants : list watch) (prices : list P)
  : M (list P) :=
  match watch_remnants with
  | [] => ret prices
  | w :: rest =>
      found <- contains (Kod w) ;;
      if found then
        price <- lift (price_entry w) ;;
        prices_loop rest (prices ++ [price])
      else prices_loop rest prices
  end.

Definition create_prices_with (watch_remnants : list watch) : M (list P) :=
  prices_loop watch_remnants [].
End Reconcile.

(** ** seller.py *)

Module Seller.
Local Open Scope py_scope.

Record stock_item : Type := { offer_id : string; stock : Z }.

Record price_item : Type := {
  auto_action_enabled : string;
  currency_code : string;
  price_offer_id : string;
  old_price : string;
  price : string
}.

Definition stock_entry (offer_id : string) (stock : Z) : stock_item :=
  {| offer_id := offer_id; stock := stock |}.

Definition price_entry (w : watch) : result price_item :=
  Ok {| auto_action_enabled := "UNKNOWN";
        currency_code := "RUB";
        price_offer_id := Kod w;
        old_price := "0";
        price := price_conversion (Tsena w) |}.

Definition create_stocks (watch_remnants : list watch) : M (list stock_item) :=
  create_stocks_with stock_entry watch_remnants.

Definition create_prices (watch_remnants : list watch) : M (list price_item) :=
  create_prices_with price_entry watch_remnants.

(** The two passes of [main], on the one list [get_offer_ids] returned:
    the stocks first, the prices after them on the same object. *)
Definition main_passes (watch_remnants : list watch)
  : M (list stock_item * list price_item) :=
  stocks <- create_stocks watch_remnants ;;
  prices <- create_prices watch_remnants ;;
  ret (stocks, prices).
End Seller.

(** ** market.py *)

Module Market.
Record stock_line : Type := { count : Z; type : string; updatedAt : string }.

Record stock_item : Type := {
  sku : string;
  warehouseId : string;
  items : list stock_line
}.

Record price_body : Type := { value : Z; currencyId : string }.

Record price_item : Type := { id : string; price : price_body }.

(** [date] is the time stamp taken once, before the loops. *)
Definition stock_entry (warehouse_id date : string) (sku : string) (stock : Z)
  : stock_item :=
  {| sku := sku;
     warehouseId := warehouse_id;
     items := [ {| count := stock; type := "FIT"; updatedAt := date |} ] |}.

Definition price_entry (w : watch) : result price_item :=
  match of_option (price_value (Tsena w)) with
  | Ok v => Ok {| id := Kod w; price := {| value := v; currencyId := "RUR" |} |}
  | Raise e => Raise e
  end.

Definition create_stocks (watch_remnants : list watch)
    (warehouse_id date : string) : M (list stock_item) :=
  create_stocks_with (stock_entry warehouse_id date) watch_remnants.

Definition create_prices (watch_remnants : list watch) : M (list price_item) :=
  create_prices_with price_entry watch_remnants.
End Market.

(** ** [divide] *)

(** The number of elements of [range(start, stop, step)], [step] not 0. *)
Definition range_len (start stop step : Z) : Z :=
  if 0 <? step then
    if start <? stop then (stop - start - 1) / step + 1 else 0
  else
    if stop <? start then (start - stop - 1) / (- step) + 1 else 0.

Definition py_range (start stop step : Z) : result (list Z) :=
  if step =? 0 then Raise ValueError
  else Ok (map (fun k => start + Z.of_nat k * step)
               (seq 0 (Z.to_nat (range_len start stop step)))).

(** [l[i:j]]: a negative bound counts from the end, and both are clamped to
    the list. *)
Definition py_slice {A : Type} (l : list A) (i j : Z) : list A :=
  let n := Z.of_nat (length l) in
  let clamp k := if k <? 0 then Z.max 0 (k + n) else Z.min k n in
  firstn (Z.to_nat (clamp j - clamp i)) (skipn (Z.to_nat (clamp i)) l).

(** [list(divide(lst, n))]: the generator run to its end, as every caller
    does; the exception of [range] surfaces at the first step. *)
Definition divide {A : Type} (lst : list A) (n : Z) : result (list (list A)) :=
  match py_range 0 (Z.of_nat (length lst)) n with
  | Ok starts => Ok (map (fun i => py_slice lst i (i + n)) starts)
  | Raise e => Raise e
  end.

(** ** [get_offer_ids] of seller.py: the total-count paginator *)

Record product : Type := { product_offer_id : string }.

(** The ["result"] block of one catalog response. *)
Record page : Type := {
  page_items : list product;
  total : Z;
  last_id : string
}.

Section Paginator.
(** The marketplace behind [get_product_list]: its state, and the answer it
    gives to a request for the page after [last_id]. *)
Variable World : Type.
Variable get_product_list : string -> World -> page * World.

(** The [while True] loop; [fuel] bounds the number of requests. *)
Fixpoint fetch_loop (fuel : nat) (last : string) (product_list : list product)
    (w : World) : option (list product * World) :=
  match fuel with
  | O => None
  | Datatypes.S fuel' =>
      let (some_prod, w') := get_product_list last w in
      let product_list' := product_list ++ page_items some_prod in
      if total some_prod =? Z.of_nat (length product_list')
      then Some (product_list', w')
      else fetch_loop fuel' (last_id some_prod) product_list' w'
  end.

Definition get_offer_ids (fuel : nat) (w : World)
  : option (list string * World) :=
  match fetch_loop fuel "" [] w with
  | Some (product_list, w') => Some (map product_offer_id product_list, w')
  | None => None
  end.

(** The requests the loop would make if it never stopped: the cursor and
    the marketplace state before request [k]. *)
Fixpoint cursor_at (k : nat) (w : World) : string * World :=
  match k with
  | O => ("", w)
  | Datatypes.S k' =>
      let (last, wk) := cursor_at k' w in
      let (some_prod, w') := get_product_list last wk in
      (last_id some_prod, w')
  end.

(** The answer to request [k] (counted from 0). *)
Definition page_at (k : nat) (w : World) : page :=
  let (last, wk) := cursor_at k w in fst (get_product_list last wk).

(** Everything received in requests [0 .. k-1]. *)
Definition accumulated (k : nat) (w : World) : list product :=
  concat (map (fun i => page_items (page_at i w)) (seq 0 k)).

(** After request [k] the number of products held equals the [total] that
    request reported. *)
Definition complete_at (k : nat) (w : World) : bool :=
  total (page_at k w) =? Z.of_nat (length (accumulated (Datatypes.S k) w)).
End Paginator.

(** ** [get_offer_ids] of market.py: the cursor paginator *)

Module MarketPaging.

Record offer : Type := { shopSku : string }.

(** One element of ["offerMappingEntries"]. *)
Record mapping_entry : Type := { entry_offer : offer }.

(** The ["paging"] block; [nextPageToken] is [None] when the key is absent
    (what [dict.get] returns then). *)
Record paging : Type := { nextPageToken : option string }.

Record mapping_page : Type := {
  offerMappingEntries : list mapping_entry;
  page_paging : paging
}.

(** [not page] for the value read from ["nextPageToken"]: true for [None]
    and for the empty text. *)
Definition falsy (page : option string) : bool :=
  match page with
  | None => true
  | Some t => String.eqb t ""
  end.

(** The text sent as [page_token] with the next request. *)
Definition token (page : option string) : string :=
  match page with
  | None => ""
  | Some t => t
  end.

Section Loop.
Variable World : Type.
Variable get_product_list : string -> World -> mapping_page * World.

(** The [while True] loop; [fuel] bounds the number of requests. *)
Fixpoint fetch_loop (fuel : nat) (page : string)
    (product_list : list mapping_entry) (w : World)
  : option (list mapping_entry * World) :=
  match fuel with
  | O => None
  | Datatypes.S fuel' =>
      let (some_prod, w') := get_product_list page w in
      let product_list' := product_list ++ offerMappingEntries some_prod in
      let page' := nextPageToken (page_paging some_prod) in
      if falsy page' then Some (product_list', w')
      else fetch_loop fuel' (token page') product_list' w'
  end.

Definition get_offer_ids (fuel : nat) (w : World)
  : option (list string * World) :=
  match fetch_loop fuel "" [] w with
  | Some (product_list, w') =>
      Some (map (fun product => shopSku (entry_offer product)) product_list, w')
  | None => None
  end.

(** The page token and the marketplace state before request [k], were the
    loop never to stop. *)
Fixpoint cursor_at (k : nat) (w : World) : string * World :=
  match k with
  | O => ("", w)
  | Datatypes.S k' =>
      let (page, wk) := cursor_at k' w in
      let (some_prod, w') := get_product_list page wk in
      (token (nextPageToken (page_paging some_prod)), w')
  end.

Definition page_at (k : nat) (w : World) : mapping_page :=
  let (page, wk) := cursor_at k w in fst (get_product_list page wk).

Definition accumulated (k : nat) (w : World) : list mapping_entry :=
  concat (map (fun i => offerMappingEntries (page_at i w)) (seq 0 k)).

(** The answer to request [k] carries no next page token. *)
Definition last_page_at (k : nat) (w : World) : bool :=
  falsy (nextPageToken (page_paging (page_at k w))).
End Loop.

End MarketPaging.

(** ** The upload drivers of seller.py *)

Section Uploads.
(** The marketplace behind [update_stocks] and [update_price]: a request
    changes its state and may raise (the exception of [raise_for_status] or
    of the transport). *)
Variable World : Type.
Variable HttpError : Type.

Inductive failure : Type :=
| PyError (e : exn)
| Http (e : HttpError).

(** [for some in batches: send(some)]: the first exception ends the loop. *)
Fixpoint send_all {T : Type} (send : list T -> World -> World * option HttpError)
    (batches : list (list T)) (w : World) : World * option HttpError :=
  match batches with
  | [] => (w, None)
  | some :: rest =>
      match send some w with
      | (w', None) => send_all send rest w'
      | (w', Some e) => (w', Some e)
      end
  end.

(** [for some in list(divide(xs, n)): send(some)] *)
Definition send_divided {T : Type}
    (send : list T -> World -> World * option HttpError)
    (xs : list T) (n : Z) (w : World) : World * option failure :=
  match divide xs n with
  | Raise e => (w, Some (PyError e))
  | Ok batches =>
      let (w', r) := send_all send batches w in
      (w', match r with Some e => Some (Http e) | None => None end)
  end.

Variable update_stocks : list Seller.stock_item -> World -> World * option HttpError.
Variable update_price : list Seller.price_item -> World -> World * option HttpError.

(** [upload_prices] from the point where [get_offer_ids] has returned
    [offer_ids]. *)
Definition upload_prices (watch_remnants : list watch) (offer_ids : list string)
    (w : World) : World * (failure + list Seller.price_item) :=
  match Seller.create_prices watch_remnants offer_ids with
  | Raise e => (w, inl (PyError e))
  | Ok (prices, _) =>
      match send_divided update_price prices 1000 w with
      | (w', Some f) => (w', inl f)
      | (w', None) => (w', inr prices)
      end
  end.

(** The filter of [upload_stocks]: the entries whose stock is not 0. *)
Definition not_empty (stocks : list Seller.stock_item) : list Seller.stock_item :=
  filter (fun stock => negb (Seller.stock stock =? 0)) stocks.

(** [upload_stocks] from the point where [get_offer_ids] has returned
    [offer_ids]; the result is the pair (not_empty, stocks). *)
Definition upload_stocks (watch_remnants : list watch) (offer_ids : list string)
    (w : World)
  : World * (failure + (list Seller.stock_item * list Seller.stock_item)) :=
  match Seller.create_stocks watch_remnants offer_ids with
  | Raise e => (w, inl (PyError e))
  | Ok (stocks, _) =>
      match send_divided update_stocks stocks 100 w with
      | (w', Some f) => (w', inl f)
      | (w', None) => (w', inr (not_empty stocks, stocks))
      end
  end.

(** The [try] block of [main] from the point where [get_offer_ids] and
    [download_stock] have returned: both passes work on the one list, and
    the first exception ends the block. *)
Definition main_body (watch_remnants : list watch) (offer_ids : list string)
    (w : World) : World * option failure :=
  match Seller.create_stocks watch_remnants offer_ids with
  | Raise e => (w, Some (PyError e))
  | Ok (stocks, offer_ids1) =>
      match send_divided update_stocks stocks 100 w with
      | (w1, Some f) => (w1, Some f)
      | (w1, None) =>
          match Seller.create_prices watch_remnants offer_ids1 with
          | Raise e => (w1, Some (PyError e))
          | Ok (prices, _) => send_divided update_price prices 900 w1
          end
      end
  end.
End Uploads.

Arguments PyError {HttpError} e.
Arguments Http {HttpError} e.

(** A marketplace with three products served in two pages, used to run the
    paginator: its state counts the requests it has answered. *)
Definition sample_catalog (last : string) (served : nat) : page * nat :=
  let some_prod :=
    if String.eqb last "" then
      {| page_items := [ {| product_offer_id := "a" |};
                         {| product_offer_id := "b" |} ];
         total := 3; last_id := "b" |}
    else if String.eqb last "b" then
      {| page_items := [ {| product_offer_id := "c" |} ];
         total := 3; last_id := "c" |}
    else {| page_items := []; total := 3; last_id := "" |} in
  (some_prod, Datatypes.S served).

(** A marketplace that reports 3 products but serves them two at a time, so
    that the number received steps from 2 to 4. *)
Definition sample_overshoot (last : string) (served : nat) : page * nat :=
  ({| page_items := [ {| product_offer_id := "x" |};
                      {| product_offer_id := "y" |} ];
      total := 3; last_id := "y" |}, Datatypes.S served).

(** A campaign with three offers served in two pages, the second without a
    next page token. *)
Definition sample_campaign (page : string) (served : nat)
  : MarketPaging.mapping_page * nat :=
  let entry sku :=
    {| MarketPaging.entry_offer := {| MarketPaging.shopSku := sku |} |} in
  let some_prod :=
    if String.eqb page "" then
      {| MarketPaging.offerMappingEntries := [entry "a"; entry "b"];
         MarketPaging.page_paging := {| MarketPaging.nextPageToken := Some "p2" |} |}
    else
      {| MarketPaging.offerMappingEntries := [entry "c"];
         MarketPaging.page_paging := {| MarketPaging.nextPageToken := None |} |} in
  (some_prod, Datatypes.S served).

(** * Properties *)

(** ** Text *)

#[local] Arguments Z.mul : simpl never.
#[local] Arguments Z.add : simpl never.
#[local] Arguments Z.sub : simpl never.
#[local] Arguments Z.div : simpl never.
#[local] Arguments Z.of_nat : simpl never.

Section TextFacts.
Import PyText.

Lemma digit_not_space (c : ascii) : is_digit c = true -> is_space c = false.
Proof.
  unfold is_digit, is_space; cbv zeta; intros H.
  apply andb_true_iff in H; destruct H as [H1 H2].
  apply Nat.leb_le in H1; apply Nat.leb_le in H2.
  apply orb_false_iff; split.
  - apply andb_false_iff; right; apply Nat.leb_gt; lia.
  - apply Nat.eqb_neq; lia.
Qed.

Lemma digit_not_char (c d : ascii) :
  is_digit c = true -> is_digit d = false -> Ascii.eqb c d = false.
Proof.
  intros Hc Hd; destruct (Ascii.eqb_spec c d); [subst; congruence | reflexivity].
Qed.

Lemma digit_val_range (c : ascii) : is_digit c = true -> 0 <= digit_val c <= 9.
Proof.
  unfold is_digit, digit_val; intros H.
  apply andb_true_iff in H; destruct H as [H1 H2].
  apply Nat.leb_le in H1; apply Nat.leb_le in H2; lia.
Qed.

Lemma hd_split (sep : ascii) (s : string) :
  hd EmptyString (split sep s) = before_first sep s.
Proof.
  induction s as [|c r IH]; simpl; [reflexivity|].
  destruct (Ascii.eqb c sep); [reflexivity|].
  destruct (split sep r) as [|p ps]; simpl in *; congruence.
Qed.


Lemma sub_non_digits_all_digits (s : string) :
  all_digits (sub_non_digits s) = true.
Proof.
  unfold all_digits; induction s as [|c r IH]; simpl; [reflexivity|].
  destruct (is_digit c) eqn:E; simpl; [now rewrite E | exact IH].
Qed.

Lemma sub_non_digits_empty (s : string) :
  sub_non_digits s = EmptyString <-> has_digit s = false.
Proof.
  unfold has_digit; induction s as [|c r IH]; simpl; [tauto|].
  destruct (is_digit c); simpl; [split; discriminate | exact IH].
Qed.

Lemma rstrip_no_space (l : list ascii) :
  forallb (fun c => negb (is_space c)) l = true -> rstrip l = l.
Proof.
  induction l as [|c r IH]; simpl; [reflexivity|].
  intros H; apply andb_true_iff in H; destruct H as [Hc Hr].
  rewrite (IH Hr); destruct r; [|reflexivity].
  now destruct (is_space c).
Qed.

Lemma forallb_digit_no_space (l : list ascii) :
  forallb is_digit l = true -> forallb (fun c => negb (is_space c)) l = true.
Proof.
  intros H; apply forallb_forall; intros c Hc.
  rewrite forallb_forall in H.
  now rewrite (digit_not_space c (H c Hc)).
Qed.

Lemma digits_us_digits (l : list ascii) :
  forallb is_digit l = true -> forall acc seen,
  digits_us acc seen (l ++ []) =
    match l with
    | [] => if seen then Some acc else None
    | _ => Some (fold_left (fun a c => 10 * a + digit_val c) l acc)
    end.
Proof.
  induction l as [|c r IH]; simpl; intros H acc seen; [reflexivity|].
  apply andb_true_iff in H; destruct H as [Hc Hr].
  rewrite Hc, (IH Hr); now destruct r.
Qed.

Lemma length_list_ascii (s : string) :
  length (list_ascii_of_string s) = String.length s.
Proof. induction s as [|c r IH]; simpl; [reflexivity | now rewrite IH]. Qed.

Lemma digit_below_127 (c : ascii) :
  is_digit c = true -> (N_of_ascii c <? 127)%N = true.
Proof.
  unfold is_digit, nat_of_ascii; intros H.
  apply andb_true_iff in H; destruct H as [_ H2].
  apply Nat.leb_le in H2; apply N.ltb_lt; lia.
Qed.

Lemma utf8_decode_ascii (c : ascii) (r : list ascii) :
  (N_of_ascii c <? 127)%N = true ->
  utf8_decode (c :: r) = option_map (cons (N_of_ascii c)) (utf8_decode r).
Proof.
  intros H; cbn [utf8_decode]; cbv zeta.
  assert (H' : (N_of_ascii c <? 128)%N = true)
    by (apply N.ltb_lt in H; apply N.ltb_lt; lia).
  now rewrite H'.
Qed.

(** A text of ASCII characters below 127 reaches the reader as it is. *)
Lemma plain_text (l : list ascii) :
  forallb (fun c => (N_of_ascii c <? 127)%N) l = true ->
  utf8_decode l = Some (map N_of_ascii l) /\
  to_ascii_text (map N_of_ascii l) = Some l.
Proof.
  induction l as [|c r IH]; [now split|].
  cbn [forallb map]; intros H; apply andb_true_iff in H; destruct H as [Hc Hr].
  destruct (IH Hr) as [Hd Ht]; split.
  - now rewrite utf8_decode_ascii, Hd.
  - cbn [to_ascii_text]; rewrite Hc, Ht; cbn [option_map].
    now rewrite ascii_N_embedding.
Qed.

Lemma int_plain (s : string) :
  forallb (fun c => (N_of_ascii c <? 127)%N) (list_ascii_of_string s) = true ->
  int s = ascii_int (list_ascii_of_string s).
Proof.
  intros H; unfold int; destruct (plain_text _ H) as [-> ->]; reflexivity.
Qed.

Lemma forallb_digit_plain (l : list ascii) :
  forallb is_digit l = true ->
  forallb (fun c => (N_of_ascii c <? 127)%N) l = true.
Proof.
  intros H; apply forallb_forall; intros c Hc.
  rewrite forallb_forall in H; exact (digit_below_127 c (H c Hc)).
Qed.

Lemma digit_count_digits (l : list ascii) :
  forallb is_digit l = true -> digit_count l = Z.of_nat (length l).
Proof. intros H; unfold digit_count; now rewrite forallb_filter_id. Qed.

Lemma ascii_int_digits (l : list ascii) :
  forallb is_digit l = true -> l <> [] ->
  ascii_int l =
    if Z.of_nat (length l) <=? max_str_digits
    then Some (fold_left (fun a c => 10 * a + digit_val c) l 0)
    else None.
Proof.
  intros H Hne; unfold ascii_int.
  rewrite (rstrip_no_space _ (forallb_digit_no_space _ H)).
  destruct l as [|c r]; [congruence|].
  pose proof (digit_count_digits (c :: r) H) as Ecount.
  pose proof (digits_us_digits (c :: r) H 0 false) as E; rewrite app_nil_r in E.
  cbn [forallb] in H; apply andb_true_iff in H; destruct H as [Hc Hr].
  cbn [lstrip]; rewrite (digit_not_space c Hc).
  rewrite (digit_not_char c "-"%char Hc eq_refl), (digit_not_char c "+"%char Hc eq_refl).
  unfold literal; now rewrite E, Ecount.
Qed.

(** On a non-empty run of ASCII digits [int] is the base-10 reading, up to
    the limit on the number of digits; beyond it there is no value. *)
Lemma int_digits (s : string) :
  all_digits s = true -> s <> EmptyString ->
  int s = if Z.of_nat (String.length s) <=? max_str_digits
          then Some (digits_value s) else None.
Proof.
  unfold all_digits, digits_value; intros H Hne.
  rewrite (int_plain s (forallb_digit_plain _ H)), <- length_list_ascii.
  apply ascii_int_digits; [exact H|].
  destruct s; [congruence | discriminate].
Qed.

Lemma fold_digits_nonneg (l : list ascii) :
  forallb is_digit l = true -> forall acc, 0 <= acc ->
  0 <= fold_left (fun a c => 10 * a + digit_val c) l acc.
Proof.
  induction l as [|c r IH]; simpl; intros H acc Hacc; [exact Hacc|].
  apply andb_true_iff in H; destruct H as [Hc Hr].
  apply IH; [exact Hr|]. pose proof (digit_val_range c Hc); lia.
Qed.

Lemma digits_value_nonneg (s : string) :
  all_digits s = true -> 0 <= digits_value s.
Proof. intros H; apply fold_digits_nonneg; [exact H | lia]. Qed.








Lemma price_conversion_before_dot (s : string) :
  price_conversion s = sub_non_digits (before_first "."%char s).
Proof. unfold price_conversion; now rewrite hd_split. Qed.

(** What [int] makes of the result of [price_conversion]. *)
Lemma price_value_spec (s : string) :
  price_value s =
    if Z.of_nat (String.length (price_conversion s)) <=? max_str_digits
    then parse_spec s else None.
Proof.
  unfold price_value, parse_spec; rewrite price_conversion_before_dot.
  pose proof (sub_non_digits_all_digits (before_first "."%char s)) as Hd.
  destruct (sub_non_digits (before_first "."%char s)) as [|c r] eqn:E;
    [reflexivity|].
  apply int_digits; [exact Hd | discriminate].
Qed.
End TextFacts.


(** ** The shared list *)

Lemma existsb_eqb_In (x : string) (l : list string) :
  existsb (String.eqb x) l = true <-> In x l.
Proof.
  rewrite existsb_exists; split.
  - intros [y [Hy E]]; apply String.eqb_eq in E; now subst.
  - intros H; exists x; split; [exact H | apply String.eqb_refl].
Qed.

Lemma existsb_eqb_not_In (x : string) (l : list string) :
  existsb (String.eqb x) l = false <-> ~ In x l.
Proof.
  rewrite <- existsb_eqb_In; destruct (existsb (String.eqb x) l); split;
    congruence.
Qed.

Lemma list_remove_perm (x : string) (l l' : list string) :
  list_remove x l = Some l' -> Permutation (x :: l') l.
Proof.
  revert l'; induction l as [|y r IH]; simpl; intros l' H; [discriminate|].
  destruct (String.eqb_spec y x) as [->|Hne].
  - injection H as <-; reflexivity.
  - destruct (list_remove x r) as [r'|]; [|discriminate].
    injection H as <-.
    rewrite perm_swap; constructor; now apply IH.
Qed.

Lemma list_remove_present (x : string) (l : list string) :
  In x l -> exists l', list_remove x l = Some l'.
Proof.
  induction l as [|y r IH]; simpl; [tauto|]; intros H.
  destruct (String.eqb_spec y x) as [->|Hne]; [now exists r|].
  destruct H as [H|H]; [congruence|].
  destruct (IH H) as [r' ->]; now exists (y :: r').
Qed.

(** ** The reconcilers *)

Section ReconcileFacts.
Context {S P : Type}.
Variable stock_entry : string -> Z -> S.
Variable price_entry : watch -> result P.
(** the offer id an entry carries *)
Variable skey : S -> string.
Variable pkey : P -> string.
Hypothesis skey_entry : forall x n, skey (stock_entry x n) = x.
Hypothesis pkey_entry : forall w p, price_entry w = Ok p -> pkey p = Kod w.

Lemma stocks_loop_cons (w : watch) (rest : list watch) (acc : list S)
    (ids : list string) :
  stocks_loop stock_entry (w :: rest) acc ids =
    if existsb (String.eqb (Kod w)) ids then
      match stock_count (Kolichestvo w) with
      | Ok n =>
          match list_remove (Kod w) ids with
          | Some ids1 =>
              stocks_loop stock_entry rest (acc ++ [stock_entry (Kod w) n]) ids1
          | None => Raise ValueError
          end
      | Raise e => Raise e
      end
    else stocks_loop stock_entry rest acc ids.
Proof.
  simpl; unfold bind, contains, lift, remove.
  destruct (existsb (String.eqb (Kod w)) ids); [|reflexivity].
  destruct (stock_count (Kolichestvo w)); [|reflexivity].
  now destruct (list_remove (Kod w) ids).
Qed.

Lemma stocks_loop_acc (R : list watch) :
  forall (acc : list S) (ids : list string),
  stocks_loop stock_entry R acc ids =
    match stocks_loop stock_entry R [] ids with
    | Ok (m, ids') => Ok (acc ++ m, ids')
    | Raise e => Raise e
    end.
Proof.
  induction R as [|w rest IH]; intros acc ids.
  - simpl; unfold ret; now rewrite app_nil_r.
  - rewrite !stocks_loop_cons.
    destruct (existsb (String.eqb (Kod w)) ids); [|apply IH].
    destruct (stock_count (Kolichestvo w)) as [n|e]; [|reflexivity].
    destruct (list_remove (Kod w) ids) as [ids1|]; [|reflexivity].
    rewrite (IH (acc ++ _)), (IH ([] ++ _)).
    destruct (stocks_loop stock_entry rest [] ids1) as [[m ids']|e];
      [|reflexivity].
    now rewrite <- app_assoc.
Qed.

(** What one turn of the first loop of [create_stocks] does. *)
Lemma stocks_loop_inv (w : watch) (rest : list watch) (ids : list string)
    (m : list S) (ids' : list string) :
  stocks_loop stock_entry (w :: rest) [] ids = Ok (m, ids') ->
  (In (Kod w) ids /\
   exists n ids1 m1,
     stock_count (Kolichestvo w) = Ok n /\
     list_remove (Kod w) ids = Some ids1 /\
     stocks_loop stock_entry rest [] ids1 = Ok (m1, ids') /\
     m = stock_entry (Kod w) n :: m1)
  \/ (~ In (Kod w) ids /\ stocks_loop stock_entry rest [] ids = Ok (m, ids')).
Proof.
  rewrite stocks_loop_cons.
  destruct (existsb (String.eqb (Kod w)) ids) eqn:E.
  - apply existsb_eqb_In in E; intros H; left; split; [exact E|].
    destruct (stock_count (Kolichestvo w)) as [n|e]; [|discriminate].
    destruct (list_remove (Kod w) ids) as [ids1|]; [|discriminate].
    rewrite stocks_loop_acc in H.
    destruct (stocks_loop stock_entry rest [] ids1) as [[m1 i1]|e] eqn:E1;
      [|discriminate].
    injection H as <- <-; now exists n, ids1, m1.
  - apply existsb_eqb_not_In in E; intros H; now right.
Qed.

Lemma stocks_loop_perm (R : list watch) :
  forall ids m ids',
  stocks_loop stock_entry R [] ids = Ok (m, ids') ->
  Permutation (map skey m ++ ids') ids.
Proof.
  induction R as [|w rest IH]; intros ids m ids' H.
  - injection H as <- <-; reflexivity.
  - apply stocks_loop_inv in H.
    destruct H as [[_ (n & ids1 & m1 & _ & Hr & Hl & ->)] | [_ Hl]].
    + simpl; rewrite skey_entry, (IH _ _ _ Hl).
      now apply list_remove_perm.
    + now apply IH.
Qed.

Lemma stocks_loop_from_feed (R : list watch) :
  forall ids m ids',
  stocks_loop stock_entry R [] ids = Ok (m, ids') ->
  Forall (fun u => exists w n, In w R /\ stock_count (Kolichestvo w) = Ok n /\
                               u = stock_entry (Kod w) n) m.
Proof.
  induction R as [|w rest IH]; intros ids m ids' H.
  - injection H as <- <-; constructor.
  - apply stocks_loop_inv in H.
    destruct H as [[_ (n & ids1 & m1 & Hn & _ & Hl & ->)] | [_ Hl]].
    + constructor; [exists w, n; simpl; auto|].
      eapply Forall_impl; [|exact (IH _ _ _ Hl)].
      intros u (w' & n' & Hw & Hr); exists w', n'; simpl; tauto.
    + eapply Forall_impl; [|exact (IH _ _ _ Hl)].
      intros u (w' & n' & Hw & Hr); exists w', n'; simpl; tauto.
Qed.

(** The first record with a given code, when the code is in the catalog, is
    matched and gives the entry for that code. *)
Lemma stocks_loop_first (R1 : list watch) (w : watch) (R2 : list watch) :
  (forall w', In w' R1 -> Kod w' <> Kod w) ->
  forall ids m ids',
  In (Kod w) ids ->
  stocks_loop stock_entry (R1 ++ w :: R2) [] ids = Ok (m, ids') ->
  exists n, stock_count (Kolichestvo w) = Ok n /\ In (stock_entry (Kod w) n) m.
Proof.
  induction R1 as [|w1 rest IH]; intros Hfirst ids m ids' Hin H; simpl in H.
  - apply stocks_loop_inv in H.
    destruct H as [[_ (n & ids1 & m1 & Hn & _ & _ & ->)] | [Hno _]];
      [|contradiction].
    exists n; simpl; auto.
  - assert (Hrest : forall w', In w' rest -> Kod w' <> Kod w)
      by (intros w' Hw'; apply Hfirst; now right).
    apply stocks_loop_inv in H.
    destruct H as [[_ (n & ids1 & m1 & _ & Hr & Hl & ->)] | [_ Hl]].
    + assert (Hin1 : In (Kod w) ids1).
      { apply list_remove_perm in Hr.
        apply (Permutation_in _ (Permutation_sym Hr)) in Hin.
        destruct Hin as [E|Hin]; [|exact Hin].
        exfalso; apply (Hfirst w1); [now left | exact E]. }
      destruct (IH Hrest _ _ _ Hin1 Hl) as [n' [Hn' Hm]].
      exists n'; simpl; auto.
    + exact (IH Hrest _ _ _ Hin Hl).
Qed.


(** With a catalog list without repetition, no record's code is left in the
    list after the loop. *)
Lemma stocks_loop_leftover (R : list watch) :
  forall ids m ids',
  NoDup ids ->
  stocks_loop stock_entry R [] ids = Ok (m, ids') ->
  NoDup ids' /\ forall w, In w R -> ~ In (Kod w) ids'.
Proof.
  induction R as [|w rest IH]; intros ids m ids' Hnd H.
  - injection H as <- <-; split; [exact Hnd | intros w []].
  - apply stocks_loop_inv in H.
    destruct H as [[_ (n & ids1 & m1 & _ & Hr & Hl & ->)] | [Hno Hl]].
    + apply list_remove_perm in Hr.
      pose proof (Permutation_NoDup (Permutation_sym Hr) Hnd) as Hnd1.
      apply NoDup_cons_iff in Hnd1; destruct Hnd1 as [Hnot Hnd1].
      destruct (IH _ _ _ Hnd1 Hl) as [Hnd' Hrest]; split; [exact Hnd'|].
      intros w' [<-|Hw']; [|now apply Hrest].
      intros Hin; apply Hnot.
      pose proof (stocks_loop_perm _ _ _ _ Hl) as Hp.
      apply (Permutation_in _ Hp), in_or_app; now right.
    + destruct (IH _ _ _ Hnd Hl) as [Hnd' Hrest]; split; [exact Hnd'|].
      intros w' [<-|Hw']; [|now apply Hrest].
      intros Hin; apply Hno.
      pose proof (stocks_loop_perm _ _ _ _ Hl) as Hp.
      apply (Permutation_in _ Hp), in_or_app; now right.
Qed.

(** The loop returns when every quantity it meets is readable. *)
Lemma stocks_loop_returns (R : list watch) :
  (forall w, In w R -> exists n, stock_count (Kolichestvo w) = Ok n) ->
  forall ids, exists m ids', stocks_loop stock_entry R [] ids = Ok (m, ids').
Proof.
  induction R as [|w rest IH]; intros Hq ids.
  - now exists [], ids.
  - rewrite stocks_loop_cons.
    assert (Hrest : forall w', In w' rest -> exists n, stock_count (Kolichestvo w') = Ok n)
      by (intros w' Hw'; apply Hq; now right).
    destruct (existsb (String.eqb (Kod w)) ids) eqn:E; [|now apply IH].
    destruct (Hq w (or_introl eq_refl)) as [n ->].
    apply existsb_eqb_In, list_remove_present in E; destruct E as [ids1 ->].
    rewrite stocks_loop_acc.
    destruct (IH Hrest ids1) as (m & ids' & ->); eauto.
Qed.

Lemma create_stocks_with_returns (R : list watch) (ids : list string) :
  (forall w, In w R -> exists n, stock_count (Kolichestvo w) = Ok n) ->
  exists stocks ids', create_stocks_with stock_entry R ids = Ok (stocks, ids').
Proof.
  intros Hq; destruct (stocks_loop_returns R Hq ids) as (m & ids' & Hl).
  unfold create_stocks_with, bind, current, ret; rewrite Hl; eauto.
Qed.

Lemma create_stocks_with_inv (R : list watch) (ids : list string)
    (stocks : list S) (ids' : list string) :
  create_stocks_with stock_entry R ids = Ok (stocks, ids') <->
  exists m, stocks_loop stock_entry R [] ids = Ok (m, ids') /\
            stocks = m ++ map (fun offer_id => stock_entry offer_id 0) ids'.
Proof.
  unfold create_stocks_with, bind, current, ret.
  destruct (stocks_loop stock_entry R [] ids) as [[m i]|e]; split.
  - intros H; injection H as <- <-; now exists m.
  - intros (m' & H & ->); now injection H as <- <-.
  - discriminate.
  - intros (m' & H & _); discriminate.
Qed.

Lemma map_skey_synth (ids : list string) :
  map skey (map (fun offer_id => stock_entry offer_id 0) ids) = ids.
Proof.
  rewrite map_map; erewrite map_ext; [apply map_id|].
  intros x; apply skey_entry.
Qed.

Lemma prices_loop_cons (w : watch) (rest : list watch) (acc : list P)
    (ids : list string) :
  prices_loop price_entry (w :: rest) acc ids =
    if existsb (String.eqb (Kod w)) ids then
      match price_entry w with
      | Ok p => prices_loop price_entry rest (acc ++ [p]) ids
      | Raise e => Raise e
      end
    else prices_loop price_entry rest acc ids.
Proof.
  simpl; unfold bind, contains, lift.
  destruct (existsb (String.eqb (Kod w)) ids); [|reflexivity].
  now destruct (price_entry w).
Qed.

Lemma prices_loop_acc (R : list watch) :
  forall (acc : list P) (ids : list string),
  prices_loop price_entry R acc ids =
    match prices_loop price_entry R [] ids with
    | Ok (ps, ids') => Ok (acc ++ ps, ids')
    | Raise e => Raise e
    end.
Proof.
  induction R as [|w rest IH]; intros acc ids.
  - simpl; unfold ret; now rewrite app_nil_r.
  - rewrite !prices_loop_cons.
    destruct (existsb (String.eqb (Kod w)) ids); [|apply IH].
    destruct (price_entry w) as [p|e]; [|reflexivity].
    rewrite (IH (acc ++ _)), (IH ([] ++ _)).
    destruct (prices_loop price_entry rest [] ids) as [[ps ids']|e];
      [|reflexivity].
    now rewrite <- app_assoc.
Qed.

(** [create_prices] leaves the list as it found it and returns one entry per
    record whose code is in the list, in the order of the feed. *)
Lemma prices_loop_spec (R : list watch) :
  forall ids ps ids',
  prices_loop price_entry R [] ids = Ok (ps, ids') ->
  ids' = ids /\
  Forall2 (fun w p => price_entry w = Ok p)
          (filter (fun w => existsb (String.eqb (Kod w)) ids) R) ps.
Proof.
  induction R as [|w rest IH]; intros ids ps ids' H.
  - injection H as <- <-; split; [reflexivity | constructor].
  - rewrite prices_loop_cons in H; simpl.
    destruct (existsb (String.eqb (Kod w)) ids); [|now apply IH].
    destruct (price_entry w) as [p|e] eqn:Ep; [|discriminate].
    rewrite prices_loop_acc in H.
    destruct (prices_loop price_entry rest [] ids) as [[ps1 i1]|e] eqn:E1;
      [|discriminate].
    injection H as <- <-.
    destruct (IH _ _ _ E1) as [-> HF]; split; [reflexivity|].
    now constructor.
Qed.

Lemma prices_loop_returns (R : list watch) (ids : list string) :
  (forall w, In w R -> In (Kod w) ids -> exists p, price_entry w = Ok p) ->
  exists ps, prices_loop price_entry R [] ids = Ok (ps, ids).
Proof.
  induction R as [|w rest IH]; intros Hp.
  - now exists [].
  - rewrite prices_loop_cons.
    destruct IH as [ps Hps]; [intros w' Hw'; apply Hp; now right|].
    destruct (existsb (String.eqb (Kod w)) ids) eqn:E; [|now exists ps].
    apply existsb_eqb_In in E.
    destruct (Hp w (or_introl eq_refl) E) as [p ->].
    rewrite prices_loop_acc, Hps; now exists (p :: ps).
Qed.

Lemma prices_loop_raise (R : list watch) (ids : list string) (w : watch) :
  In w R -> In (Kod w) ids -> (forall p, price_entry w <> Ok p) ->
  prices_loop price_entry R [] ids = Raise ValueError.
Proof.
  intros Hw Hin Hbad.
  destruct (prices_loop price_entry R [] ids) as [[ps ids']|[]] eqn:E;
    [|reflexivity].
  apply prices_loop_spec in E; destruct E as [_ HF].
  assert (Hf : In w (filter (fun w => existsb (String.eqb (Kod w)) ids) R))
    by (apply filter_In; split; [exact Hw | now apply existsb_eqb_In]).
  exfalso; revert Hf; induction HF as [|w0 p0 l l' H0 _ IH]; simpl; [tauto|].
  intros [->|Hf]; [now destruct (Hbad p0) | now apply IH].
Qed.

Lemma Forall2_filter_code (a : string) (ws : list watch) (ps : list P) :
  Forall2 (fun w p => price_entry w = Ok p) ws ps ->
  Forall2 (fun w p => price_entry w = Ok p)
          (filter (fun w => String.eqb (Kod w) a) ws)
          (filter (fun p => String.eqb (pkey p) a) ps).
Proof.
  induction 1 as [|w p ws ps Hwp _ IH]; simpl; [constructor|].
  rewrite (pkey_entry _ _ Hwp).
  destruct (String.eqb (Kod w) a); [now constructor | exact IH].
Qed.

Lemma filter_code_catalog (a : string) (ids : list string) (R : list watch) :
  In a ids ->
  filter (fun w => String.eqb (Kod w) a)
         (filter (fun w => existsb (String.eqb (Kod w)) ids) R) =
  filter (fun w => String.eqb (Kod w) a) R.
Proof.
  intros Hin; induction R as [|w rest IH]; simpl; [reflexivity|].
  destruct (String.eqb_spec (Kod w) a) as [E|Hne].
  - rewrite E, (proj2 (existsb_eqb_In a ids) Hin); simpl.
    rewrite <- E at 1; rewrite String.eqb_refl; now rewrite IH.
  - destruct (existsb (String.eqb (Kod w)) ids); simpl; [|exact IH].
    destruct (String.eqb_spec (Kod w) a); [contradiction | exact IH].
Qed.

(** In a list of entries with distinct ids, the entries with the id of a
    member are that member alone. *)
Lemma filter_key_unique (l : list S) (u : S) :
  NoDup (map skey l) -> In u l ->
  filter (fun v => String.eqb (skey v) (skey u)) l = [u].
Proof.
  induction l as [|v r IH]; simpl; intros Hnd Hin; [tauto|].
  apply NoDup_cons_iff in Hnd; destruct Hnd as [Hv Hnd].
  assert (Hnone : forall x, ~ In x (map skey r) ->
            filter (fun v => String.eqb (skey v) x) r = []).
  { intros x Hx; clear -Hx; induction r as [|y r IH]; simpl; [reflexivity|].
    destruct (String.eqb_spec (skey y) x) as [E|_].
    - exfalso; apply Hx; left; exact E.
    - apply IH; intros H; apply Hx; now right. }
  destruct Hin as [->|Hin].
  - rewrite String.eqb_refl; f_equal; now apply Hnone.
  - destruct (String.eqb_spec (skey v) (skey u)) as [E|_]; [|now apply IH].
    exfalso; apply Hv; rewrite E; now apply in_map.
Qed.
End ReconcileFacts.

Lemma filter_twice {A : Type} (f g : A -> bool) (l : list A) :
  filter f (filter g l) = filter (fun x => g x && f x) l.
Proof.
  induction l as [|x l IH]; simpl; [reflexivity|].
  destruct (g x); simpl; [destruct (f x); now rewrite IH | exact IH].
Qed.

Lemma filter_other_absent (x : string) (l : list string) :
  ~ In x l -> filter (fun y => negb (String.eqb y x)) l = l.
Proof.
  induction l as [|y r IH]; simpl; intros Hx; [reflexivity|].
  destruct (String.eqb_spec y x) as [E|_]; simpl.
  - exfalso; apply Hx; now left.
  - rewrite IH; [reflexivity | intros H; apply Hx; now right].
Qed.

(** On a list without repetition [remove] deletes every element equal to
    its argument, keeping the order of the others. *)
Lemma list_remove_filter (x : string) (l l' : list string) :
  NoDup l -> list_remove x l = Some l' ->
  l' = filter (fun y => negb (String.eqb y x)) l.
Proof.
  revert l'; induction l as [|y r IH]; simpl; intros l' Hnd H; [discriminate|].
  apply NoDup_cons_iff in Hnd; destruct Hnd as [Hy Hnd].
  destruct (String.eqb_spec y x) as [->|Hne]; simpl.
  - injection H as <-; now rewrite filter_other_absent.
  - destruct (list_remove x r) as [r'|]; [|discriminate].
    injection H as <-; now rewrite (IH r' Hnd eq_refl).
Qed.

Section ReconcileMore.
Context {S P : Type}.
Variable stock_entry : string -> Z -> S.
Variable price_entry : watch -> result P.

Lemma stocks_loop_skip (w : watch) (R2 : list watch) (R1 : list watch) :
  forall (acc : list S) (ids : list string),
  ~ In (Kod w) ids ->
  stocks_loop stock_entry (R1 ++ w :: R2) acc ids =
  stocks_loop stock_entry (R1 ++ R2) acc ids.
Proof.
  induction R1 as [|w1 rest IH]; intros acc ids Hno.
  - simpl app; rewrite stocks_loop_cons.
    now rewrite (proj2 (existsb_eqb_not_In _ _) Hno).
  - simpl app; rewrite !stocks_loop_cons.
    destruct (existsb (String.eqb (Kod w1)) ids); [|now apply IH].
    destruct (stock_count (Kolichestvo w1)) as [n|e]; [|reflexivity].
    destruct (list_remove (Kod w1) ids) as [ids1|] eqn:Hr; [|reflexivity].
    apply IH; intros Hin; apply Hno.
    apply (Permutation_in _ (list_remove_perm _ _ _ Hr)); now right.
Qed.

Lemma prices_loop_skip (w : watch) (R2 : list watch) (R1 : list watch) :
  forall (acc : list P) (ids : list string),
  ~ In (Kod w) ids ->
  prices_loop price_entry (R1 ++ w :: R2) acc ids =
  prices_loop price_entry (R1 ++ R2) acc ids.
Proof.
  induction R1 as [|w1 rest IH]; intros acc ids Hno.
  - simpl app; rewrite prices_loop_cons.
    now rewrite (proj2 (existsb_eqb_not_In _ _) Hno).
  - simpl app; rewrite !prices_loop_cons.
    destruct (existsb (String.eqb (Kod w1)) ids); [|now apply IH].
    destruct (price_entry w1) as [p|e]; [|reflexivity].
    now apply IH.
Qed.

(** The ids left in the list by the first loop of [create_stocks], for a
    list without repetition: those that are the code of no record, in the
    order they had. *)
Lemma stocks_loop_leftover_filter (R : list watch) :
  forall ids m ids',
  NoDup ids ->
  stocks_loop stock_entry R [] ids = Ok (m, ids') ->
  ids' = filter (fun id => negb (existsb (fun w => String.eqb (Kod w) id) R)) ids.
Proof.
  induction R as [|w rest IH]; intros ids m ids' Hnd H.
  - injection H as _ <-; simpl; now rewrite filter_true.
  - apply stocks_loop_inv in H.
    destruct H as [[_ (n & ids1 & m1 & _ & Hr & Hl & _)] | [Hno Hl]].
    + pose proof (Permutation_NoDup (Permutation_sym (list_remove_perm _ _ _ Hr)) Hnd)
        as Hnd1.
      apply NoDup_cons_iff in Hnd1; destruct Hnd1 as [_ Hnd1].
      rewrite (IH _ _ _ Hnd1 Hl), (list_remove_filter _ _ _ Hnd Hr), filter_twice.
      apply filter_ext; intros id; simpl.
      rewrite (String.eqb_sym (Kod w) id); now rewrite negb_orb.
    + rewrite (IH _ _ _ Hnd Hl); apply filter_ext_in; intros id Hid; simpl.
      destruct (String.eqb_spec (Kod w) id) as [E|_]; [|reflexivity].
      exfalso; apply Hno; now rewrite E.
Qed.

(** The first loop of [create_stocks] returns as soon as the quantity of
    every record that is the first with its code, the code in the list, is
    readable; the list without repetition. *)
Lemma stocks_loop_returns_first (R : list watch) :
  forall ids,
  NoDup ids ->
  (forall R1 w R2, R = R1 ++ w :: R2 -> In (Kod w) ids ->
     (forall w', In w' R1 -> Kod w' <> Kod w) ->
     exists n, stock_count (Kolichestvo w) = Ok n) ->
  exists m ids', stocks_loop stock_entry R [] ids = Ok (m, ids').
Proof.
  induction R as [|w rest IH]; intros ids Hnd Hq.
  - now exists [], ids.
  - rewrite stocks_loop_cons.
    destruct (existsb (String.eqb (Kod w)) ids) eqn:E.
    + apply existsb_eqb_In in E.
      destruct (Hq [] w rest eq_refl E ltac:(intros w' [])) as [n ->].
      destruct (list_remove_present _ _ E) as [ids1 Hr]; rewrite Hr.
      pose proof (list_remove_perm _ _ _ Hr) as Hp.
      pose proof (Permutation_NoDup (Permutation_sym Hp) Hnd) as Hnd1.
      apply NoDup_cons_iff in Hnd1; destruct Hnd1 as [Hnot Hnd1].
      rewrite stocks_loop_acc.
      destruct (IH ids1 Hnd1) as (m & ids' & ->); [|eauto].
      intros R1 w' R2 -> Hin Hfirst.
      apply (Hq (w :: R1) w' R2 eq_refl).
      * apply (Permutation_in _ Hp); now right.
      * intros x [<-|Hx]; [congruence | now apply Hfirst].
    + apply existsb_eqb_not_In in E.
      apply (IH ids Hnd).
      intros R1 w' R2 -> Hin Hfirst.
      apply (Hq (w :: R1) w' R2 eq_refl Hin).
      intros x [<-|Hx]; [congruence | now apply Hfirst].
Qed.

Lemma prices_loop_raise_inv (R : list watch) (ids : list string) (e : exn) :
  prices_loop price_entry R [] ids = Raise e ->
  exists w, In w R /\ In (Kod w) ids /\ forall p, price_entry w <> Ok p.
Proof.
  induction R as [|w rest IH]; [discriminate|].
  rewrite prices_loop_cons.
  destruct (existsb (String.eqb (Kod w)) ids) eqn:E.
  - destruct (price_entry w) as [p|e'] eqn:Ep.
    + rewrite prices_loop_acc.
      destruct (prices_loop price_entry rest [] ids) as [[ps i]|e'];
        [discriminate|].
      intros H; destruct (IH H) as (w' & Hw' & Hin & Hbad).
      exists w'; split; [now right | auto].
    + intros _; exists w; split; [now left|].
      split; [now apply existsb_eqb_In | intros p; rewrite Ep; discriminate].
  - intros H; destruct (IH H) as (w' & Hw' & Hin & Hbad).
    exists w'; split; [now right | auto].
Qed.

End ReconcileMore.

Lemma split_at_record {A : Type} (R1 P : list A) (w w' : A) (R2 Q : list A) :
  R1 ++ w :: R2 = P ++ w' :: Q -> w' = w \/ In w' R1 \/ In w P.
Proof.
  revert P; induction R1 as [|a R1 IH]; intros [|b P] H; simpl in H;
    injection H as E1 E2.
  - left; congruence.
  - right; right; left; congruence.
  - right; left; left; congruence.
  - destruct (IH P E2) as [E|[Hin|Hin]]; [now left | |].
    + right; left; now right.
    + right; right; now right.
Qed.

Section LaterDuplicates.
Context {S : Type}.
Variable stock_entry : string -> Z -> S.

(** Once the turn of a record is over, its code is not in the list, the
    list being without repetition: a later record with that code changes
    nothing, whatever it holds. *)
Lemma stocks_loop_later_duplicate (w w2 : watch) (R2a R2b : list watch)
    (R1 : list watch) :
  Kod w2 = Kod w ->
  forall (acc : list S) (ids : list string),
  NoDup ids ->
  stocks_loop stock_entry (R1 ++ w :: R2a ++ w2 :: R2b) acc ids =
  stocks_loop stock_entry (R1 ++ w :: R2a ++ R2b) acc ids.
Proof.
  intros Hsame; induction R1 as [|w1 rest IH]; intros acc ids Hnd.
  - simpl app; rewrite !stocks_loop_cons.
    destruct (existsb (String.eqb (Kod w)) ids) eqn:E.
    + destruct (stock_count (Kolichestvo w)) as [n|e]; [|reflexivity].
      destruct (list_remove (Kod w) ids) as [ids1|] eqn:Hr; [|reflexivity].
      apply stocks_loop_skip; rewrite Hsame.
      pose proof (Permutation_NoDup (Permutation_sym (list_remove_perm _ _ _ Hr)) Hnd)
        as Hnd1.
      now apply NoDup_cons_iff in Hnd1.
    + apply stocks_loop_skip; rewrite Hsame; now apply existsb_eqb_not_In.
  - simpl app; rewrite !stocks_loop_cons.
    destruct (existsb (String.eqb (Kod w1)) ids); [|now apply IH].
    destruct (stock_count (Kolichestvo w1)) as [n|e]; [|reflexivity].
    destruct (list_remove (Kod w1) ids) as [ids1|] eqn:Hr; [|reflexivity].
    apply IH.
    pose proof (Permutation_NoDup (Permutation_sym (list_remove_perm _ _ _ Hr)) Hnd)
      as Hnd1.
    now apply NoDup_cons_iff in Hnd1.
Qed.

Lemma create_stocks_with_later_duplicate (R1 : list watch) (w : watch)
    (R2a : list watch) (w2 : watch) (R2b : list watch) (C : list string) :
  NoDup C -> Kod w2 = Kod w ->
  create_stocks_with stock_entry (R1 ++ w :: R2a ++ w2 :: R2b) C =
  create_stocks_with stock_entry (R1 ++ w :: R2a ++ R2b) C.
Proof.
  intros Hnd Hsame; unfold create_stocks_with, bind.
  now rewrite (stocks_loop_later_duplicate w w2 R2a R2b R1 Hsame [] C Hnd).
Qed.

(** The call returns when the first record with the code and every record
    with another code are readable, whatever the later records with the
    code hold. *)
Lemma create_stocks_with_returns_despite (R1 : list watch) (w : watch)
    (R2 : list watch) (C : list string) :
  NoDup C -> (forall w', In w' R1 -> Kod w' <> Kod w) ->
  (exists n, stock_count (Kolichestvo w) = Ok n) ->
  (forall w', In w' (R1 ++ R2) -> Kod w' <> Kod w ->
     exists n, stock_count (Kolichestvo w') = Ok n) ->
  exists stocks C',
    create_stocks_with stock_entry (R1 ++ w :: R2) C = Ok (stocks, C').
Proof.
  intros Hnd Hfirst Hw Hothers.
  destruct (stocks_loop_returns_first stock_entry (R1 ++ w :: R2) C Hnd)
    as (m & ids' & Hl).
  - intros P w' Q E _ Hfirst'.
    destruct (String.eqb_spec (Kod w') (Kod w)) as [Hsame|Hne].
    + destruct (split_at_record _ _ _ _ _ _ E) as [->|[Hin|Hin]]; [exact Hw | |].
      * now destruct (Hfirst w' Hin).
      * destruct (Hfirst' w Hin); now symmetry.
    + apply Hothers; [|exact Hne].
      assert (Hin : In w' (R1 ++ w :: R2)) by (rewrite E; apply in_elt).
      apply in_app_or in Hin; apply in_or_app.
      destruct Hin as [Hin|[->|Hin]]; [now left | congruence | now right].
  - unfold create_stocks_with, bind, current, ret; rewrite Hl; eauto.
Qed.
End LaterDuplicates.

Lemma stocks_loop_unmatched {S : Type} (stock_entry : string -> Z -> S)
    (R : list watch) :
  forall ids ids',
  stocks_loop stock_entry R [] ids = Ok ([], ids') -> ids' = ids.
Proof.
  induction R as [|w rest IH]; intros ids ids' H.
  - now injection H as <-.
  - apply stocks_loop_inv in H.
    destruct H as [[_ (n & ids1 & m1 & _ & _ & _ & Hm)] | [_ Hl]];
      [discriminate | now apply IH].
Qed.

Lemma Forall2_In_l {A B : Type} (Rel : A -> B -> Prop) (l : list A)
    (l' : list B) (a : A) :
  Forall2 Rel l l' -> In a l -> exists b, In b l' /\ Rel a b.
Proof.
  induction 1 as [|x y l l' Hxy _ IH]; simpl; [tauto|].
  intros [<-|Hin]; [exists y; auto|].
  destruct (IH Hin) as [b [Hb Hab]]; exists b; auto.
Qed.

(** What [create_stocks] returns, whatever dictionary it builds. *)
Lemma create_stocks_with_complete {S : Type} (stock_entry : string -> Z -> S)
    (skey : S -> string) (Hkey : forall x n, skey (stock_entry x n) = x)
    (R : list watch) (C : list string) (stocks : list S) (C' : list string) :
  create_stocks_with stock_entry R C = Ok (stocks, C') ->
  exists matched,
    stocks = matched ++ map (fun offer_id => stock_entry offer_id 0) C' /\
    Permutation (map skey stocks) C /\
    Permutation (map skey matched ++ C') C /\
    (C' = C <-> matched = []) /\
    Forall (fun u => exists w n, In w R /\
                       stock_count (Kolichestvo w) = Ok n /\
                       u = stock_entry (Kod w) n) matched.
Proof.
  intros H; apply create_stocks_with_inv in H; destruct H as (m & Hl & ->).
  pose proof (stocks_loop_perm stock_entry skey Hkey _ _ _ _ Hl) as Hp.
  exists m; split; [reflexivity|].
  split; [now rewrite map_app, (map_skey_synth stock_entry skey Hkey)|].
  split; [exact Hp|].
  split; [|exact (stocks_loop_from_feed stock_entry _ _ _ _ Hl)].
  split.
  - intros ->; apply Permutation_length in Hp.
    rewrite length_app, length_map in Hp.
    destruct m; [reflexivity | simpl in Hp; lia].
  - intros ->; exact (stocks_loop_unmatched stock_entry _ _ _ Hl).
Qed.

Lemma create_stocks_with_first {S : Type} (stock_entry : string -> Z -> S)
    (R1 : list watch) (w : watch) (R2 : list watch) (C : list string)
    (stocks : list S) (C' : list string) :
  In (Kod w) C -> (forall w', In w' R1 -> Kod w' <> Kod w) ->
  create_stocks_with stock_entry (R1 ++ w :: R2) C = Ok (stocks, C') ->
  exists n, stock_count (Kolichestvo w) = Ok n /\
            In (stock_entry (Kod w) n) stocks.
Proof.
  intros Hin Hfirst H.
  apply create_stocks_with_inv in H; destruct H as (m & Hl & ->).
  destruct (stocks_loop_first stock_entry R1 w R2 Hfirst _ _ _ Hin Hl)
    as [n [Hn Hm]].
  exists n; split; [exact Hn | apply in_or_app; now left].
Qed.


Lemma create_stocks_with_once {S : Type} (stock_entry : string -> Z -> S)
    (skey : S -> string) (Hkey : forall x n, skey (stock_entry x n) = x)
    (R1 : list watch) (w : watch) (R2 : list watch) (C : list string)
    (stocks : list S) (C' : list string) :
  NoDup C -> In (Kod w) C -> (forall w', In w' R1 -> Kod w' <> Kod w) ->
  create_stocks_with stock_entry (R1 ++ w :: R2) C = Ok (stocks, C') ->
  exists n, stock_count (Kolichestvo w) = Ok n /\
            filter (fun u => String.eqb (skey u) (Kod w)) stocks =
              [stock_entry (Kod w) n].
Proof.
  intros Hnd Hin Hfirst H.
  destruct (create_stocks_with_first stock_entry _ _ _ _ _ _ Hin Hfirst H)
    as [n [Hn Hm]].
  destruct (create_stocks_with_complete stock_entry skey Hkey _ _ _ _ H)
    as (m & _ & Hp & _).
  exists n; split; [exact Hn|].
  pose proof (filter_key_unique skey stocks (stock_entry (Kod w) n)
                (Permutation_NoDup (Permutation_sym Hp) Hnd) Hm) as E.
  now rewrite Hkey in E.
Qed.

Lemma seller_pkey (w : watch) (p : Seller.price_item) :
  Seller.price_entry w = Ok p -> Seller.price_offer_id p = Kod w.
Proof. intros H; injection H as <-; reflexivity. Qed.

Lemma market_pkey (w : watch) (p : Market.price_item) :
  Market.price_entry w = Ok p -> Market.id p = Kod w.
Proof.
  unfold Market.price_entry; destruct (of_option (price_value (Tsena w)));
    [|discriminate].
  intros H; injection H as <-; reflexivity.
Qed.

Lemma seller_create_prices_returns (R : list watch) (C : list string) :
  exists prices, Seller.create_prices R C = Ok (prices, C).
Proof.
  apply prices_loop_returns; intros w _ _; unfold Seller.price_entry; eauto.
Qed.

Ltac nodup_strings :=
  repeat (constructor; [simpl; intuition discriminate|]); constructor.



(** C2, as the code has it.  Let [w] be the first record of the feed with its
    code, the code being in a catalog list without repetition.
    [create_stocks] returns exactly one update for that code, built from [w];
    later records with the same code give no stock update and no error: the
    call does what it does on the feed without them, and it returns as soon
    as [w] and the records with other codes are readable.
    [create_prices] consumes nothing: it returns one price update for every
    record with that code, in feed order, each built from its own record. *)
Theorem duplicate_records (R1 : list watch) (w : watch) (R2 : list watch)
    (C : list string) :
  NoDup C -> In (Kod w) C -> (forall w', In w' R1 -> Kod w' <> Kod w) ->
  let R := R1 ++ w :: R2 in
  let same := fun w' : watch => String.eqb (Kod w') (Kod w) in
  (forall stocks C',
     Seller.create_stocks R C = Ok (stocks, C') ->
     exists n, stock_count (Kolichestvo w) = Ok n /\
       filter (fun u => String.eqb (Seller.offer_id u) (Kod w)) stocks =
         [Seller.stock_entry (Kod w) n])
  /\
  (forall warehouse_id date stocks C',
     Market.create_stocks R warehouse_id date C = Ok (stocks, C') ->
     exists n, stock_count (Kolichestvo w) = Ok n /\
       filter (fun u => String.eqb (Market.sku u) (Kod w)) stocks =
         [Market.stock_entry warehouse_id date (Kod w) n])
  /\
  (forall R2a w2 R2b,
     R2 = R2a ++ w2 :: R2b -> Kod w2 = Kod w ->
     Seller.create_stocks R C = Seller.create_stocks (R1 ++ w :: R2a ++ R2b) C /\
     forall warehouse_id date,
       Market.create_stocks R warehouse_id date C =
       Market.create_stocks (R1 ++ w :: R2a ++ R2b) warehouse_id date C)
  /\
  ((exists n, stock_count (Kolichestvo w) = Ok n) ->
   (forall w', In w' (R1 ++ R2) -> Kod w' <> Kod w ->
      exists n, stock_count (Kolichestvo w') = Ok n) ->
   (exists stocks C', Seller.create_stocks R C = Ok (stocks, C')) /\
   forall warehouse_id date,
     exists stocks C', Market.create_stocks R warehouse_id date C = Ok (stocks, C'))
  /\
  (exists prices,
     Seller.create_prices R C = Ok (prices, C) /\
     let for_code :=
       filter (fun p => String.eqb (Seller.price_offer_id p) (Kod w)) prices in
     Forall2 (fun w' p => Seller.price_entry w' = Ok p) (filter same R) for_code /\
     length for_code = Datatypes.S (length (filter same R2)))
  /\
  (forall prices C',
     Market.create_prices R C = Ok (prices, C') ->
     let for_code := filter (fun p => String.eqb (Market.id p) (Kod w)) prices in
     Forall2 (fun w' p => Market.price_entry w' = Ok p) (filter same R) for_code /\
     length for_code = Datatypes.S (length (filter same R2))).
Proof.
  intros Hnd Hin Hfirst R same.
  assert (Hcount : length (filter same R) = Datatypes.S (length (filter same R2))).
  { unfold R; rewrite filter_app, length_app; simpl.
    unfold same at 2; rewrite String.eqb_refl; simpl.
    assert (E : filter same R1 = []).
    { clear -Hfirst; induction R1 as [|x r IH]; simpl; [reflexivity|].
      unfold same at 1; destruct (String.eqb_spec (Kod x) (Kod w)) as [E|_].
      - exfalso; apply (Hfirst x); [now left | exact E].
      - apply IH; intros w' Hw'; apply Hfirst; now right. }
    now rewrite E. }
  split; [|split; [|split; [|split; [|split]]]].
  - intros stocks C' H.
    exact (create_stocks_with_once Seller.stock_entry Seller.offer_id
             (fun _ _ => eq_refl) _ _ _ _ _ _ Hnd Hin Hfirst H).
  - intros warehouse_id date stocks C' H.
    exact (create_stocks_with_once (Market.stock_entry warehouse_id date)
             Market.sku (fun _ _ => eq_refl) _ _ _ _ _ _ Hnd Hin Hfirst H).
  - intros R2a w2 R2b -> Hsame; split; [|intros warehouse_id date].
    + exact (create_stocks_with_later_duplicate Seller.stock_entry
               R1 w R2a w2 R2b C Hnd Hsame).
    + exact (create_stocks_with_later_duplicate
               (Market.stock_entry warehouse_id date) R1 w R2a w2 R2b C Hnd Hsame).
  - intros Hw Hothers; split; [|intros warehouse_id date].
    + exact (create_stocks_with_returns_despite Seller.stock_entry
               R1 w R2 C Hnd Hfirst Hw Hothers).
    + exact (create_stocks_with_returns_despite
               (Market.stock_entry warehouse_id date) R1 w R2 C Hnd Hfirst Hw Hothers).
  - destruct (seller_create_prices_returns R C) as [prices Hp].
    exists prices; split; [exact Hp|].
    apply prices_loop_spec in Hp; destruct Hp as [_ HF].
    apply (Forall2_filter_code Seller.price_entry Seller.price_offer_id
             seller_pkey (Kod w)) in HF.
    rewrite (filter_code_catalog _ _ _ Hin) in HF.
    cbv zeta; split; [exact HF|].
    now rewrite <- (Forall2_length HF).
  - intros prices C' Hp.
    apply prices_loop_spec in Hp; destruct Hp as [_ HF].
    apply (Forall2_filter_code Market.price_entry Market.id
             market_pkey (Kod w)) in HF.
    rewrite (filter_code_catalog _ _ _ Hin) in HF.
    cbv zeta; split; [exact HF|].
    now rewrite <- (Forall2_length HF).
Qed.

Lemma duplicate_records_witness :
  let a5 := {| Kod := "A"; Kolichestvo := "5"; Tsena := "100.00" |} in
  let a' := {| Kod := "A"; Kolichestvo := "sold out"; Tsena := "200.00" |} in
  let stocks := [Seller.stock_entry "A" 5; Seller.stock_entry "B" 0] in
  Seller.create_stocks [a5; a'] ["A"; "B"] = Ok (stocks, ["B"]) /\
  Seller.create_stocks [a5; a'] ["A"; "B"] = Seller.create_stocks [a5] ["A"; "B"] /\
  filter (fun u => String.eqb (Seller.offer_id u) "A") stocks =
    [Seller.stock_entry "A" 5].
Proof.
  intros a5 a' stocks.
  assert (Hnd : NoDup ["A"; "B"]) by nodup_strings.
  assert (Hin : In (Kod a5) ["A"; "B"]) by (simpl; auto).
  assert (Hfirst : forall w', In w' [] -> Kod w' <> Kod a5) by (intros w' []).
  destruct (duplicate_records [] a5 [a'] ["A"; "B"] Hnd Hin Hfirst)
    as (Hone & _ & Hlater & _).
  assert (Hrun : Seller.create_stocks [a5; a'] ["A"; "B"] = Ok (stocks, ["B"]))
    by reflexivity.
  split; [exact Hrun|].
  split; [exact (proj1 (Hlater [] a' [] eq_refl eq_refl))|].
  destruct (Hone stocks ["B"] Hrun) as [n [Hn Hf]].
  assert (E : n = 5) by (vm_compute in Hn; congruence).
  now rewrite E in Hf.
Defined.

(** C2 as stated fails for prices: two records with code ["A"] give two price
    updates for ["A"]. *)
Lemma duplicate_records_two_prices :
  let a5 := {| Kod := "A"; Kolichestvo := "5"; Tsena := "100.00" |} in
  let a7 := {| Kod := "A"; Kolichestvo := "7"; Tsena := "200.00" |} in
  exists p1 p2,
    Seller.create_prices [a5; a7] ["A"] = Ok ([p1; p2], ["A"]) /\
    Seller.price_offer_id p1 = "A" /\ Seller.price_offer_id p2 = "A" /\
    Seller.price p1 = "100" /\ Seller.price p2 = "200" /\
    length (filter (fun p => String.eqb (Seller.price_offer_id p) "A") [p1; p2])
      <> 1%nat.
Proof.
  intros a5 a7; do 2 eexists; split; [reflexivity|].
  repeat split; simpl; discriminate.
Qed.

(** C3, as the code has it.  [create_prices] returns with the catalog list
    as it received it.  [create_stocks] removes from the caller's list the id
    of every record it matches: on return the list holds the ids that got a
    synthesized zero entry, and it is the list received only when no record
    was matched. *)
Theorem catalog_after_reconcile (R : list watch) (C : list string) :
  (forall prices C', Seller.create_prices R C = Ok (prices, C') -> C' = C)
  /\ (forall prices C', Market.create_prices R C = Ok (prices, C') -> C' = C)
  /\ (forall stocks C',
        Seller.create_stocks R C = Ok (stocks, C') ->
        exists matched,
          stocks = matched ++ map (fun i => Seller.stock_entry i 0) C' /\
          Permutation (map Seller.offer_id matched ++ C') C /\
          (C' = C <-> matched = []))
  /\ (forall warehouse_id date stocks C',
        Market.create_stocks R warehouse_id date C = Ok (stocks, C') ->
        exists matched,
          stocks = matched ++
                   map (fun i => Market.stock_entry warehouse_id date i 0) C' /\
          Permutation (map Market.sku matched ++ C') C /\
          (C' = C <-> matched = [])).
Proof.
  split; [|split; [|split]].
  - intros prices C' H; now apply prices_loop_spec in H.
  - intros prices C' H; now apply prices_loop_spec in H.
  - intros stocks C' H.
    destruct (create_stocks_with_complete Seller.stock_entry Seller.offer_id
                (fun _ _ => eq_refl) _ _ _ _ H) as (m & Hs & _ & Hp & Hiff & _).
    now exists m.
  - intros warehouse_id date stocks C' H.
    destruct (create_stocks_with_complete (Market.stock_entry warehouse_id date)
                Market.sku (fun _ _ => eq_refl) _ _ _ _ H)
      as (m & Hs & _ & Hp & Hiff & _).
    now exists m.
Qed.

Lemma catalog_after_reconcile_witness :
  let R := [ {| Kod := "A"; Kolichestvo := "5"; Tsena := "100.00" |} ] in
  exists prices,
    Seller.create_prices R ["A"; "B"] = Ok (prices, ["A"; "B"]) /\
    exists matched,
      [Seller.stock_entry "A" 5; Seller.stock_entry "B" 0] =
        matched ++ map (fun i => Seller.stock_entry i 0) ["B"] /\
      Permutation (map Seller.offer_id matched ++ ["B"]) ["A"; "B"].
Proof.
  intros R; eexists; split; [reflexivity|].
  destruct (proj1 (proj2 (proj2 (catalog_after_reconcile R ["A"; "B"])))
              [Seller.stock_entry "A" 5; Seller.stock_entry "B" 0] ["B"] eq_refl)
    as (m & Hs & Hp & _).
  exists m; split; [exact Hs | exact Hp].
Defined.

(** C3 as stated fails for [create_stocks]: the matched id is gone from the
    caller's list. *)
Lemma create_stocks_changes_catalog :
  let R := [ {| Kod := "A"; Kolichestvo := "5"; Tsena := "100.00" |} ] in
  Seller.create_stocks R ["A"; "B"] =
    Ok ([Seller.stock_entry "A" 5; Seller.stock_entry "B" 0], ["B"]) /\
  Market.create_stocks R "w1" "2024-01-01T00:00:00Z" ["A"; "B"] =
    Ok ([Market.stock_entry "w1" "2024-01-01T00:00:00Z" "A" 5;
         Market.stock_entry "w1" "2024-01-01T00:00:00Z" "B" 0], ["B"]) /\
  ["B"] <> ["A"; "B"].
Proof. repeat split; discriminate. Qed.

(** C5, as the code has it.  When no ASCII digit stands before the first
    ['.'] of a price text, [price_conversion] raises nothing and returns the
    empty text.  The single-store [create_prices] then returns a price update
    whose price is the empty text; the multi-campaign [create_prices], which
    passes the result to [int], raises [ValueError]. *)
Theorem price_without_digits (s : string) :
  PyText.has_digit (PyText.before_first "."%char s) = false ->
  price_conversion s = EmptyString
  /\ price_value s = None
  /\ forall (R : list watch) (C : list string) (w : watch),
       In w R -> In (Kod w) C -> Tsena w = s ->
       Market.create_prices R C = Raise ValueError /\
       exists prices,
         Seller.create_prices R C = Ok (prices, C) /\
         exists p, In p prices /\ Seller.price_offer_id p = Kod w /\
                   Seller.price p = EmptyString.
Proof.
  intros Hno.
  assert (Hc : price_conversion s = EmptyString)
    by (rewrite price_conversion_before_dot; now apply sub_non_digits_empty).
  assert (Hv : price_value s = None) by (unfold price_value; now rewrite Hc).
  split; [exact Hc|]; split; [exact Hv|].
  intros R C w Hw Hin Hs; split.
  - apply (prices_loop_raise Market.price_entry R C w Hw Hin).
    intros p; unfold Market.price_entry; rewrite Hs, Hv; discriminate.
  - destruct (seller_create_prices_returns R C) as [prices Hp].
    exists prices; split; [exact Hp|].
    apply prices_loop_spec in Hp; destruct Hp as [_ HF].
    assert (Hf : In w (filter (fun w => existsb (String.eqb (Kod w)) C) R))
      by (apply filter_In; split; [exact Hw | now apply existsb_eqb_In]).
    destruct (Forall2_In_l _ _ _ _ HF Hf) as [p [Hp E]].
    exists p; split; [exact Hp|].
    injection E as <-; simpl; now rewrite Hs, Hc.
Qed.

Lemma price_without_digits_witness :
  let w := {| Kod := "A"; Kolichestvo := "5"; Tsena := " руб." |} in
  price_conversion " руб." = EmptyString /\
  Market.create_prices [w] ["A"] = Raise ValueError.
Proof.
  intros w.
  destruct (price_without_digits " руб." eq_refl) as (Hc & _ & H).
  destruct (H [w] ["A"] w (or_introl eq_refl) (or_introl eq_refl) eq_refl)
    as [Hm _].
  exact (conj Hc Hm).
Defined.

(** C5 as stated fails: on the empty price text [price_conversion] returns
    the empty text, and the single-store [create_prices] returns an update
    carrying it. *)
Lemma price_conversion_empty_returns :
  let w := {| Kod := "A"; Kolichestvo := "5"; Tsena := "" |} in
  price_conversion "" = "" /\
  Seller.create_prices [w] ["A"] =
    Ok ([ {| Seller.auto_action_enabled := "UNKNOWN";
             Seller.currency_code := "RUB";
             Seller.price_offer_id := "A";
             Seller.old_price := "0";
             Seller.price := "" |} ], ["A"]) /\
  Seller.create_prices [w] ["A"] <> Raise ValueError.
Proof. repeat split; discriminate. Qed.



(** C10, for a catalog list without repetition.  [main] hands the list
    [create_stocks] has worked on to [create_prices]: the price pass sees the
    ids the stock pass left, none of which is the code of a record, so it
    returns no price update at all (and changes the list no further). *)
Theorem main_prices_after_stocks (R : list watch) (C : list string)
    (stocks : list Seller.stock_item) (prices : list Seller.price_item)
    (C' : list string) :
  Seller.main_passes R C = Ok ((stocks, prices), C') ->
  Seller.create_stocks R C = Ok (stocks, C')
  /\ Seller.create_prices R C' = Ok (prices, C')
  /\ Forall (fun p => In (Seller.price_offer_id p) C') prices
  /\ (NoDup C ->
      (forall w, In w R -> ~ In (Kod w) C') /\ prices = []).
Proof.
  unfold Seller.main_passes, bind, ret; intros H.
  destruct (Seller.create_stocks R C) as [[st C1]|e] eqn:Es; [|discriminate].
  destruct (Seller.create_prices R C1) as [[pr C2]|e] eqn:Ep; [|discriminate].
  injection H as <- <- <-.
  pose proof (prices_loop_spec _ _ _ _ _ Ep) as [-> HF].
  split; [reflexivity|]; split; [exact Ep|]; split.
  - assert (Hall : Forall (fun w => In (Kod w) C1)
                      (filter (fun w => existsb (String.eqb (Kod w)) C1) R)).
    { apply Forall_forall; intros w Hw; apply filter_In in Hw.
      now apply existsb_eqb_In. }
    clear Ep; revert Hall.
    induction HF as [|w p l pr' Hwp _ IH]; intros Hall; [constructor|].
    apply Forall_cons_iff in Hall; destruct Hall as [Hw Hall].
    constructor; [now rewrite (seller_pkey _ _ Hwp) | now apply IH].
  - intros Hnd.
    apply create_stocks_with_inv in Es; destruct Es as (m & Hl & _).
    destruct (stocks_loop_leftover Seller.stock_entry Seller.offer_id
                (fun _ _ => eq_refl) _ _ _ _ Hnd Hl) as [_ Hleft].
    split; [exact Hleft|].
    assert (E : filter (fun w => existsb (String.eqb (Kod w)) C1) R = []).
    { clear -Hleft; induction R as [|w r IH]; simpl; [reflexivity|].
      rewrite (proj2 (existsb_eqb_not_In (Kod w) C1) (Hleft w (or_introl eq_refl))).
      apply IH; intros w' Hw'; apply Hleft; now right. }
    rewrite E in HF; now inversion HF.
Qed.

Lemma main_prices_after_stocks_witness :
  let R := [ {| Kod := "A"; Kolichestvo := ">10"; Tsena := "100.00" |};
             {| Kod := "B"; Kolichestvo := "1"; Tsena := "50.00" |} ] in
  Seller.create_stocks R ["A"; "B"; "C"] =
    Ok ([Seller.stock_entry "A" 100; Seller.stock_entry "B" 0;
         Seller.stock_entry "C" 0], ["C"]) /\
  Seller.create_prices R ["C"] = Ok ([], ["C"]).
Proof.
  intros R.
  destruct (main_prices_after_stocks R ["A"; "B"; "C"]
              [Seller.stock_entry "A" 100; Seller.stock_entry "B" 0;
               Seller.stock_entry "C" 0] [] ["C"] eq_refl) as (Hs & Hp & _).
  exact (conj Hs Hp).
Defined.

(** C10 as stated fails for a catalog list that repeats an id: the record
    matched by the stock pass still gets a price update. *)
Lemma main_prices_repeated_id :
  let a5 := {| Kod := "A"; Kolichestvo := "5"; Tsena := "100.00" |} in
  exists p,
    Seller.main_passes [a5] ["A"; "A"] =
      Ok (([Seller.stock_entry "A" 5; Seller.stock_entry "A" 0], [p]), ["A"]) /\
    Seller.price_offer_id p = Kod a5 /\ [p] <> [].
Proof.
  intros a5; eexists; split; [reflexivity|].
  split; [reflexivity | discriminate].
Qed.

(** ** [divide] *)

Section DivideFacts.
Context {A : Type}.

Lemma firstn_add_skipn (a b : nat) (l : list A) :
  firstn (a + b) l = firstn a l ++ firstn b (skipn a l).
Proof.
  revert l; induction a as [|a IH]; intros l; [reflexivity|].
  destruct l as [|x l]; simpl; [now rewrite firstn_nil | now rewrite IH].
Qed.

(** The slice [l[i : i + n]] for [i] and [n] not negative. *)
Lemma py_slice_chunk (l : list A) (i n : nat) :
  py_slice l (Z.of_nat i) (Z.of_nat i + Z.of_nat n) = firstn n (skipn i l).
Proof.
  unfold py_slice; cbv zeta.
  destruct (Z.ltb_spec (Z.of_nat i) 0) as [Hi|_]; [lia|].
  destruct (Z.ltb_spec (Z.of_nat i + Z.of_nat n) 0) as [Hj|_]; [lia|].
  destruct (Nat.le_gt_cases i (length l)) as [Hle|Hgt].
  - replace (Z.to_nat (Z.min (Z.of_nat i) (Z.of_nat (length l)))) with i by lia.
    destruct (Nat.le_gt_cases (i + n) (length l)) as [Hle2|Hgt2].
    + f_equal; lia.
    + rewrite !firstn_all2; [reflexivity | |]; rewrite length_skipn; lia.
  - rewrite (skipn_all2 (n := i)) by lia.
    rewrite firstn_nil.
    replace (Z.to_nat _) with 0%nat by lia; reflexivity.
Qed.

Lemma range_len_ceil (L n : Z) :
  0 <= L -> 0 < n -> range_len 0 L n = (L + n - 1) / n.
Proof.
  intros HL Hn; unfold range_len.
  destruct (Z.ltb_spec 0 n) as [_|]; [|lia].
  destruct (Z.ltb_spec 0 L) as [Hpos|Hz].
  - replace (L + n - 1) with (L - 0 - 1 + 1 * n) by lia.
    rewrite Z.div_add by lia; reflexivity.
  - replace L with 0 by lia; rewrite Z.div_small by lia; reflexivity.
Qed.

(** [(L + n - 1) / n] is the least number of chunks of size [n] that cover
    [L] elements. *)
Lemma ceil_bounds (L n : Z) :
  0 <= L -> 0 < n ->
  let c := (L + n - 1) / n in
  0 <= c /\ L <= c * n < L + n.
Proof.
  intros HL Hn c.
  pose proof (Z.div_mod (L + n - 1) n ltac:(lia)) as E.
  pose proof (Z.mod_pos_bound (L + n - 1) n Hn) as B.
  fold c in E; nia.
Qed.

Lemma divide_positive (lst : list A) (n : nat) :
  (0 < n)%nat ->
  divide lst (Z.of_nat n) =
    Ok (map (fun k => firstn n (skipn (k * n) lst))
            (seq 0 (Z.to_nat ((Z.of_nat (length lst) + Z.of_nat n - 1) / Z.of_nat n)))).
Proof.
  intros Hn; unfold divide, py_range.
  destruct (Z.eqb_spec (Z.of_nat n) 0) as [|_]; [lia|].
  rewrite range_len_ceil by lia.
  rewrite map_map; f_equal; apply map_ext; intros k.
  replace (0 + Z.of_nat k * Z.of_nat n) with (Z.of_nat (k * n)) by lia.
  apply py_slice_chunk.
Qed.

Lemma concat_chunks (lst : list A) (n c : nat) :
  concat (map (fun k => firstn n (skipn (k * n) lst)) (seq 0 c)) =
  firstn (c * n) lst.
Proof.
  induction c as [|c IH]; [reflexivity|].
  rewrite seq_S, map_app, concat_app, IH; simpl.
  rewrite app_nil_r, (Nat.add_comm n), firstn_add_skipn; reflexivity.
Qed.
End DivideFacts.

(** C6.  For a positive size [n], [divide] returns [ceil(len/n)] batches
    whose concatenation is the list, in order; every batch but the last has
    exactly [n] elements and every batch (so the last too) between 1 and
    [n]. *)
Theorem divide_chunks {A : Type} (items : list A) (n : Z) :
  0 < n ->
  exists batches,
    divide items n = Ok batches /\
    Z.of_nat (length batches) = (Z.of_nat (length items) + n - 1) / n /\
    Z.of_nat (length items) <= Z.of_nat (length batches) * n
      < Z.of_nat (length items) + n /\
    concat batches = items /\
    forall i b, nth_error batches i = Some b ->
      1 <= Z.of_nat (length b) <= n /\
      ((i + 1 < length batches)%nat -> Z.of_nat (length b) = n).
Proof.
  intros Hn.
  assert (En : n = Z.of_nat (Z.to_nat n)) by lia.
  revert En Hn; generalize (Z.to_nat n) as n'; intros n' -> Hn.
  pose proof (divide_positive items n' ltac:(lia)) as Hd.
  pose proof (ceil_bounds (Z.of_nat (length items)) (Z.of_nat n') ltac:(lia) Hn)
    as Hc.
  cbv zeta in Hc; destruct Hc as (Hc0 & Hc1).
  revert Hd Hc0 Hc1.
  generalize ((Z.of_nat (length items) + Z.of_nat n' - 1) / Z.of_nat n') as c.
  intros c Hd Hc0 Hc1.
  assert (Ec : c = Z.of_nat (Z.to_nat c)) by lia.
  revert Ec Hd Hc0 Hc1; generalize (Z.to_nat c) as c'; intros c' -> Hd _ Hc1.
  eexists; split; [exact Hd|].
  rewrite length_map, length_seq.
  split; [reflexivity|].
  split; [exact Hc1|].
  split.
  - rewrite concat_chunks; apply firstn_all2; nia.
  - intros i b Hb.
    rewrite nth_error_map, nth_error_seq in Hb.
    destruct (Nat.ltb_spec i c') as [Hi|]; [|discriminate].
    injection Hb as <-.
    rewrite length_firstn, length_skipn.
    assert (Hlt : (i * n' < length items)%nat) by nia.
    split; [nia|].
    intros Hnext.
    assert (((i + 1) * n' < length items)%nat) by nia.
    nia.
Qed.

Lemma divide_chunks_witness :
  exists batches,
    divide [1; 2; 3; 4; 5] 2 = Ok batches /\
    Z.of_nat (length batches) = 3 /\ concat batches = [1; 2; 3; 4; 5].
Proof.
  destruct (divide_chunks [1; 2; 3; 4; 5] 2 eq_refl)
    as (batches & Hd & Hlen & _ & Hcat & _).
  exists batches; split; [exact Hd|]; split; [exact Hlen | exact Hcat].
Defined.

(** C7, as the code has it.  For size 0, [divide] raises ([ValueError], from
    [range]); for a negative size it raises nothing and yields no batch at
    all, whatever the list. *)
Theorem divide_nonpositive {A : Type} (items : list A) (n : Z) :
  n <= 0 ->
  (n = 0 -> divide items n = Raise ValueError) /\
  (n < 0 -> divide items n = Ok []).
Proof.
  intros _; split.
  - intros ->; reflexivity.
  - intros Hneg; unfold divide, py_range, range_len.
    destruct (Z.eqb_spec n 0) as [|_]; [lia|].
    destruct (Z.ltb_spec 0 n) as [|_]; [lia|].
    destruct (Z.ltb_spec (Z.of_nat (length items)) 0) as [|_]; [lia|].
    reflexivity.
Qed.

Lemma divide_nonpositive_witness :
  divide [1; 2; 3] 0 = Raise ValueError /\ divide [1; 2; 3] (-2) = Ok [].
Proof.
  split.
  - exact (proj1 (divide_nonpositive [1; 2; 3] 0 ltac:(lia)) eq_refl).
  - exact (proj2 (divide_nonpositive [1; 2; 3] (-2) ltac:(lia)) eq_refl).
Defined.

(** C7 as stated fails for a negative size: nothing is raised and the
    chunking of a non-empty list is empty. *)
Lemma divide_negative_is_silent :
  divide [1; 2; 3] (-1) = Ok [] /\
  divide [1; 2; 3] (-1) <> Raise ValueError.
Proof. split; [reflexivity | discriminate]. Qed.

(** ** The total-count paginator *)

Lemma first_true (f : nat -> bool) (n : nat) :
  f n = true ->
  exists m, (m <= n)%nat /\ f m = true /\ forall j, (j < m)%nat -> f j = false.
Proof.
  revert f; induction n as [|n IH]; intros f Hn.
  - exists 0%nat; repeat split; [lia | exact Hn | intros j Hj; lia].
  - destruct (f 0%nat) eqn:E0.
    + exists 0%nat; repeat split; [lia | exact E0 | intros j Hj; lia].
    + destruct (IH (fun k => f (Datatypes.S k)) Hn) as (m & Hm & Hfm & Hlt).
      exists (Datatypes.S m); repeat split; [lia | exact Hfm |].
      intros [|j] Hj; [exact E0 | apply Hlt; lia].
Qed.

Section PaginatorFacts.
Variable World : Type.
Variable get_product_list : string -> World -> page * World.

Local Abbreviation cursor := (cursor_at World get_product_list).
Local Abbreviation received := (accumulated World get_product_list).
Local Abbreviation complete := (complete_at World get_product_list).
Local Abbreviation loop := (fetch_loop World get_product_list).

Lemma accumulated_S (k : nat) (w : World) :
  received (Datatypes.S k) w =
  received k w ++ page_items (page_at World get_product_list k w).
Proof.
  unfold accumulated.
  rewrite seq_S, map_app, concat_app; simpl; now rewrite app_nil_r.
Qed.

(** One turn of the loop, entered as request [k] is about to be made. *)
Lemma fetch_loop_step (fuel k : nat) (w : World) :
  loop (Datatypes.S fuel) (fst (cursor k w)) (received k w) (snd (cursor k w)) =
    if complete k w
    then Some (received (Datatypes.S k) w, snd (cursor (Datatypes.S k) w))
    else loop fuel (fst (cursor (Datatypes.S k) w)) (received (Datatypes.S k) w)
              (snd (cursor (Datatypes.S k) w)).
Proof.
  unfold complete_at; rewrite accumulated_S.
  unfold page_at; simpl.
  destruct (cursor_at World get_product_list k w) as [last wk]; simpl.
  now destruct (get_product_list last wk) as [some_prod w'].
Qed.

Lemma fetch_loop_run (d : nat) :
  forall (k : nat) (w : World),
  (forall j, (k <= j < k + d)%nat -> complete j w = false) ->
  complete (k + d) w = true ->
  forall fuel, (d < fuel)%nat ->
  loop fuel (fst (cursor k w)) (received k w) (snd (cursor k w)) =
    Some (received (Datatypes.S (k + d)) w, snd (cursor (Datatypes.S (k + d)) w)).
Proof.
  induction d as [|d IH]; intros k w Hbefore Hat fuel Hfuel;
    (destruct fuel as [|fuel]; [lia|]); rewrite fetch_loop_step.
  - rewrite Nat.add_0_r in *; now rewrite Hat.
  - rewrite (Hbefore k) by lia.
    replace (k + Datatypes.S d)%nat with (Datatypes.S k + d)%nat in * by lia.
    apply IH; [intros j Hj; apply Hbefore; lia | exact Hat | lia].
Qed.

Lemma fetch_loop_short (fuel : nat) :
  forall (k : nat) (w : World),
  (forall j, (k <= j < k + fuel)%nat -> complete j w = false) ->
  loop fuel (fst (cursor k w)) (received k w) (snd (cursor k w)) = None.
Proof.
  induction fuel as [|fuel IH]; intros k w Hbefore; [reflexivity|].
  rewrite fetch_loop_step, (Hbefore k) by lia.
  apply IH; intros j Hj; apply Hbefore; lia.
Qed.

(** C9.  If after some request the number of products received equals the
    [total] that request reported, [get_offer_ids] returns: it makes the
    requests up to the first such one and no more, and returns the offer id
    of every product received, in order, as many as that [total]. *)
Theorem get_offer_ids_total_count (w : World) (n : nat) :
  complete n w = true ->
  exists m, (m <= n)%nat /\
    complete m w = true /\
    (forall j, (j < m)%nat -> complete j w = false) /\
    (forall fuel, (m < fuel)%nat ->
       get_offer_ids World get_product_list fuel w =
         Some (map product_offer_id (received (Datatypes.S m) w),
               snd (cursor (Datatypes.S m) w))) /\
    (forall fuel, (fuel <= m)%nat ->
       get_offer_ids World get_product_list fuel w = None) /\
    Z.of_nat (length (map product_offer_id (received (Datatypes.S m) w))) =
      total (page_at World get_product_list m w).
Proof.
  intros Hn.
  destruct (first_true (fun k => complete k w) n Hn) as (m & Hm & Hat & Hbefore).
  exists m; split; [exact Hm|]; split; [exact Hat|]; split; [exact Hbefore|].
  split; [|split].
  - intros fuel Hfuel; unfold get_offer_ids.
    change (fetch_loop World get_product_list fuel "" [] w)
      with (loop fuel (fst (cursor 0%nat w)) (received 0%nat w) (snd (cursor 0%nat w))).
    rewrite (fetch_loop_run m 0 w); [reflexivity | | exact Hat | exact Hfuel].
    intros j Hj; apply Hbefore; lia.
  - intros fuel Hfuel; unfold get_offer_ids.
    change (fetch_loop World get_product_list fuel "" [] w)
      with (loop fuel (fst (cursor 0%nat w)) (received 0%nat w) (snd (cursor 0%nat w))).
    rewrite (fetch_loop_short fuel 0 w); [reflexivity|].
    intros j Hj; apply Hbefore; lia.
  - rewrite length_map; unfold complete_at in Hat.
    apply Z.eqb_eq in Hat; now rewrite Hat.
Qed.
End PaginatorFacts.

Lemma get_offer_ids_total_count_witness :
  get_offer_ids nat sample_catalog 5 0%nat = Some (["a"; "b"; "c"], 2%nat).
Proof.
  destruct (get_offer_ids_total_count nat sample_catalog 0%nat 1%nat eq_refl)
    as (m & Hm & Hat & _ & Hrun & _).
  assert (E : m = 1%nat).
  { destruct m as [|[|m]]; [discriminate Hat | reflexivity | lia]. }
  rewrite E in Hrun; exact (Hrun 5%nat ltac:(lia)).
Defined.

(** ** Examples *)

Example price_conversion_doc :
  price_conversion "5'990.00 руб." = "5990".
Proof. reflexivity. Qed.

Example int_examples :
  PyText.int "7" = Some 7 /\ PyText.int "0" = Some 0 /\
  PyText.int " -1_000 " = Some (-1000) /\ PyText.int ">10" = None /\
  PyText.int "" = None /\ PyText.int "1__0" = None /\ PyText.int "007" = Some 7 /\
  PyText.int "٣" = Some 3 /\ PyText.int "１２" = Some 12 /\
  PyText.int "7 руб" = None /\ stock_count "٣" = Ok 3.
Proof. repeat split; reflexivity. Qed.

(** The scenario of the specification: catalog [A, B, C], a feed with [A]
    and [B]. *)
Example scenario_stocks_prices :
  let R := [ {| Kod := "A"; Kolichestvo := ">10"; Tsena := "100.00" |};
             {| Kod := "B"; Kolichestvo := "1"; Tsena := "50.00" |} ] in
  Seller.create_stocks R ["A"; "B"; "C"] =
    Ok ([Seller.stock_entry "A" 100; Seller.stock_entry "B" 0;
         Seller.stock_entry "C" 0], ["C"]) /\
  map Seller.price (fst (match Seller.create_prices R ["A"; "B"; "C"] with
                         | Ok r => r
                         | Raise _ => ([], [])
                         end)) = ["100"; "50"] /\
  divide [1; 2; 3; 4] 2 = Ok [[1; 2]; [3; 4]].
Proof. repeat split; reflexivity. Qed.

(** * Further properties *)

(** ** The paginators *)

Lemma bounded_search (f : nat -> bool) (n : nat) :
  (exists j, (j < n)%nat /\ f j = true) \/
  (forall j, (j < n)%nat -> f j = false).
Proof.
  induction n as [|n [[j [Hj Hf]]|Hnone]].
  - right; intros j Hj; lia.
  - left; exists j; split; [lia | exact Hf].
  - destruct (f n) eqn:E.
    + left; exists n; split; [lia | exact E].
    + right; intros j Hj.
      destruct (Nat.eq_dec j n) as [->|Hne]; [exact E | apply Hnone; lia].
Qed.

Section PaginatorMore.
Variable World : Type.
Variable get_product_list : string -> World -> page * World.

Local Abbreviation cursor := (cursor_at World get_product_list).
Local Abbreviation received := (accumulated World get_product_list).
Local Abbreviation complete := (complete_at World get_product_list).

Lemma accumulated_length_mono (j k : nat) (w : World) :
  (j <= k)%nat -> (length (received j w) <= length (received k w))%nat.
Proof.
  induction 1 as [|k _ IH]; [lia|].
  rewrite accumulated_S, length_app; lia.
Qed.

(** X1.  When the total-count [get_offer_ids] returns, it has stopped at the
    first request after which the number of products received equals the
    reported [total]: it returns their offer ids, in order, as many as that
    [total], and has made no further request. *)
Theorem get_offer_ids_returns_complete (fuel : nat) (w : World)
    (ids : list string) (w' : World) :
  get_offer_ids World get_product_list fuel w = Some (ids, w') ->
  exists m, (m < fuel)%nat /\
    complete m w = true /\
    (forall j, (j < m)%nat -> complete j w = false) /\
    ids = map product_offer_id (received (Datatypes.S m) w) /\
    w' = snd (cursor (Datatypes.S m) w) /\
    Z.of_nat (length ids) = total (page_at World get_product_list m w).
Proof.
  intros H.
  destruct (bounded_search (fun k => complete k w) fuel) as [[j [Hj Hc]]|Hnone].
  - destruct (first_true (fun k => complete k w) j Hc) as (m & Hm & Hat & Hbefore).
    unfold get_offer_ids in H.
    change (fetch_loop World get_product_list fuel "" [] w)
      with (fetch_loop World get_product_list fuel (fst (cursor 0%nat w))
              (received 0%nat w) (snd (cursor 0%nat w))) in H.
    rewrite (fetch_loop_run World get_product_list m 0 w) in H;
      [| intros i Hi; apply Hbefore; lia | exact Hat | lia].
    injection H as <- <-.
    exists m; repeat split; [lia | exact Hat | exact Hbefore |].
    rewrite length_map; unfold complete_at in Hat.
    apply Z.eqb_eq in Hat; now rewrite Hat.
  - unfold get_offer_ids in H.
    change (fetch_loop World get_product_list fuel "" [] w)
      with (fetch_loop World get_product_list fuel (fst (cursor 0%nat w))
              (received 0%nat w) (snd (cursor 0%nat w))) in H.
    rewrite (fetch_loop_short World get_product_list fuel 0 w) in H;
      [discriminate|].
    intros k Hk; apply Hnone; lia.
Qed.

(** X2.  If every response reports the same [total] and the number of
    products received passes it without ever being equal to it, the
    total-count [get_offer_ids] never returns: it keeps requesting pages,
    whatever the bound on the number of requests. *)
Theorem get_offer_ids_overshoot (w : World) (T : Z) (k : nat) :
  (forall j, total (page_at World get_product_list j w) = T) ->
  (forall j, (j <= k)%nat -> complete j w = false) ->
  T < Z.of_nat (length (received (Datatypes.S k) w)) ->
  forall fuel, get_offer_ids World get_product_list fuel w = None.
Proof.
  intros Htotal Hbefore Hover fuel; unfold get_offer_ids.
  change (fetch_loop World get_product_list fuel "" [] w)
    with (fetch_loop World get_product_list fuel (fst (cursor 0%nat w))
            (received 0%nat w) (snd (cursor 0%nat w))).
  rewrite (fetch_loop_short World get_product_list fuel 0 w); [reflexivity|].
  intros j _.
  destruct (Nat.le_gt_cases j k) as [Hle|Hgt]; [now apply Hbefore|].
  unfold complete_at; rewrite Htotal; apply Z.eqb_neq.
  pose proof (accumulated_length_mono (Datatypes.S k) (Datatypes.S j) w ltac:(lia)).
  lia.
Qed.
End PaginatorMore.

Lemma get_offer_ids_returns_complete_witness :
  exists m, (m < 5)%nat /\
    ["a"; "b"; "c"] =
      map product_offer_id (accumulated nat sample_catalog (Datatypes.S m) 0%nat).
Proof.
  destruct (get_offer_ids_returns_complete nat sample_catalog 5 0%nat
              ["a"; "b"; "c"] 2%nat eq_refl) as (m & Hm & _ & _ & Hids & _).
  exists m; split; [exact Hm | exact Hids].
Defined.

Lemma get_offer_ids_overshoot_witness :
  get_offer_ids nat sample_overshoot 50 0%nat = None.
Proof.
  apply (get_offer_ids_overshoot nat sample_overshoot 0%nat 3 1%nat).
  - intros j; unfold page_at.
    now destruct (cursor_at nat sample_overshoot j 0%nat).
  - intros [|[|j]] Hj; [reflexivity | reflexivity | lia].
  - vm_compute; reflexivity.
Defined.

Section MarketPagingFacts.
Import MarketPaging.
Variable World : Type.
Variable get_product_list : string -> World -> mapping_page * World.

Local Abbreviation mcursor := (MarketPaging.cursor_at World get_product_list).
Local Abbreviation mreceived := (MarketPaging.accumulated World get_product_list).
Local Abbreviation mlast := (MarketPaging.last_page_at World get_product_list).
Local Abbreviation mloop := (MarketPaging.fetch_loop World get_product_list).

Lemma market_accumulated_S (k : nat) (w : World) :
  mreceived (Datatypes.S k) w =
  mreceived k w ++
  offerMappingEntries (MarketPaging.page_at World get_product_list k w).
Proof.
  unfold MarketPaging.accumulated.
  rewrite seq_S, map_app, concat_app; simpl; now rewrite app_nil_r.
Qed.

Lemma market_fetch_loop_step (fuel k : nat) (w : World) :
  mloop (Datatypes.S fuel) (fst (mcursor k w)) (mreceived k w) (snd (mcursor k w)) =
    if mlast k w
    then Some (mreceived (Datatypes.S k) w, snd (mcursor (Datatypes.S k) w))
    else mloop fuel (fst (mcursor (Datatypes.S k) w)) (mreceived (Datatypes.S k) w)
               (snd (mcursor (Datatypes.S k) w)).
Proof.
  unfold MarketPaging.last_page_at; rewrite market_accumulated_S.
  unfold MarketPaging.page_at; simpl.
  destruct (MarketPaging.cursor_at World get_product_list k w) as [page wk]; simpl.
  now destruct (get_product_list page wk) as [some_prod w'].
Qed.

Lemma market_fetch_loop_run (d : nat) :
  forall (k : nat) (w : World),
  (forall j, (k <= j < k + d)%nat -> mlast j w = false) ->
  mlast (k + d) w = true ->
  forall fuel, (d < fuel)%nat ->
  mloop fuel (fst (mcursor k w)) (mreceived k w) (snd (mcursor k w)) =
    Some (mreceived (Datatypes.S (k + d)) w, snd (mcursor (Datatypes.S (k + d)) w)).
Proof.
  induction d as [|d IH]; intros k w Hbefore Hat fuel Hfuel;
    (destruct fuel as [|fuel]; [lia|]); rewrite market_fetch_loop_step.
  - rewrite Nat.add_0_r in *; now rewrite Hat.
  - rewrite (Hbefore k) by lia.
    replace (k + Datatypes.S d)%nat with (Datatypes.S k + d)%nat in * by lia.
    apply IH; [intros j Hj; apply Hbefore; lia | exact Hat | lia].
Qed.

Lemma market_fetch_loop_short (fuel : nat) :
  forall (k : nat) (w : World),
  (forall j, (k <= j < k + fuel)%nat -> mlast j w = false) ->
  mloop fuel (fst (mcursor k w)) (mreceived k w) (snd (mcursor k w)) = None.
Proof.
  induction fuel as [|fuel IH]; intros k w Hbefore; [reflexivity|].
  rewrite market_fetch_loop_step, (Hbefore k) by lia.
  apply IH; intros j Hj; apply Hbefore; lia.
Qed.

Lemma market_get_offer_ids_start (fuel : nat) (w : World) :
  MarketPaging.get_offer_ids World get_product_list fuel w =
    match mloop fuel (fst (mcursor 0%nat w)) (mreceived 0%nat w)
                (snd (mcursor 0%nat w)) with
    | Some (product_list, w') =>
        Some (map (fun product => shopSku (entry_offer product)) product_list, w')
    | None => None
    end.
Proof. reflexivity. Qed.

(** X3.  If some response of the campaign carries no next page token (the
    key absent, or the empty text), the cursor [get_offer_ids] returns: it
    makes the requests up to the first such response and no more, each with
    the token of the response before, and returns the [shopSku] of every
    entry received, in order. *)
Theorem market_get_offer_ids_cursor (w : World) (n : nat) :
  mlast n w = true ->
  exists m, (m <= n)%nat /\
    mlast m w = true /\
    (forall j, (j < m)%nat -> mlast j w = false) /\
    (forall fuel, (m < fuel)%nat ->
       MarketPaging.get_offer_ids World get_product_list fuel w =
         Some (map (fun product => shopSku (entry_offer product))
                   (mreceived (Datatypes.S m) w),
               snd (mcursor (Datatypes.S m) w))) /\
    (forall fuel, (fuel <= m)%nat ->
       MarketPaging.get_offer_ids World get_product_list fuel w = None).
Proof.
  intros Hn.
  destruct (first_true (fun k => mlast k w) n Hn) as (m & Hm & Hat & Hbefore).
  exists m; split; [exact Hm|]; split; [exact Hat|]; split; [exact Hbefore|].
  split; intros fuel Hfuel; rewrite market_get_offer_ids_start.
  - rewrite (market_fetch_loop_run m 0 w); [reflexivity | | exact Hat | exact Hfuel].
    intros j Hj; apply Hbefore; lia.
  - rewrite (market_fetch_loop_short fuel 0 w); [reflexivity|].
    intros j Hj; apply Hbefore; lia.
Qed.

(** X4.  The cursor [get_offer_ids] returns only at a response without a
    next page token, the first one: while every response carries a
    non-empty token it goes on requesting. *)
Theorem market_get_offer_ids_returns_last (fuel : nat) (w : World)
    (ids : list string) (w' : World) :
  MarketPaging.get_offer_ids World get_product_list fuel w = Some (ids, w') ->
  exists m, (m < fuel)%nat /\
    mlast m w = true /\
    (forall j, (j < m)%nat -> mlast j w = false) /\
    ids = map (fun product => shopSku (entry_offer product))
              (mreceived (Datatypes.S m) w) /\
    w' = snd (mcursor (Datatypes.S m) w).
Proof.
  rewrite market_get_offer_ids_start; intros H.
  destruct (bounded_search (fun k => mlast k w) fuel) as [[j [Hj Hc]]|Hnone].
  - destruct (first_true (fun k => mlast k w) j Hc) as (m & Hm & Hat & Hbefore).
    rewrite (market_fetch_loop_run m 0 w) in H;
      [| intros i Hi; apply Hbefore; lia | exact Hat | lia].
    injection H as <- <-.
    exists m; repeat split; [lia | exact Hat | exact Hbefore].
  - rewrite (market_fetch_loop_short fuel 0 w) in H; [discriminate|].
    intros k Hk; apply Hnone; lia.
Qed.
End MarketPagingFacts.

Lemma market_get_offer_ids_cursor_witness :
  MarketPaging.get_offer_ids nat sample_campaign 4 0%nat =
    Some (["a"; "b"; "c"], 2%nat).
Proof.
  destruct (market_get_offer_ids_cursor nat sample_campaign 0%nat 1%nat eq_refl)
    as (m & Hm & Hat & _ & Hrun & _).
  assert (E : m = 1%nat).
  { destruct m as [|[|m]]; [discriminate Hat | reflexivity | lia]. }
  rewrite E in Hrun; exact (Hrun 4%nat ltac:(lia)).
Defined.

Lemma market_get_offer_ids_returns_last_witness :
  exists m, (m < 4)%nat /\
    MarketPaging.last_page_at nat sample_campaign m 0%nat = true.
Proof.
  destruct (market_get_offer_ids_returns_last nat sample_campaign 4 0%nat
              ["a"; "b"; "c"] 2%nat eq_refl) as (m & Hm & Hat & _).
  exists m; split; [exact Hm | exact Hat].
Defined.

(** ** The reconcilers: what is ignored, what is left, what raises *)


(** X5.  A record whose code is not in the catalog list is ignored by both
    reconcilers of both files: the call behaves as if the record were not in
    the feed, so neither its quantity nor its price is ever read. *)
Theorem record_outside_catalog_ignored (R1 : list watch) (w : watch)
    (R2 : list watch) (C : list string) :
  ~ In (Kod w) C ->
  Seller.create_stocks (R1 ++ w :: R2) C = Seller.create_stocks (R1 ++ R2) C
  /\ (forall warehouse_id date,
        Market.create_stocks (R1 ++ w :: R2) warehouse_id date C =
        Market.create_stocks (R1 ++ R2) warehouse_id date C)
  /\ Seller.create_prices (R1 ++ w :: R2) C = Seller.create_prices (R1 ++ R2) C
  /\ Market.create_prices (R1 ++ w :: R2) C = Market.create_prices (R1 ++ R2) C.
Proof.
  intros Hno; split; [|split; [|split]].
  - unfold Seller.create_stocks, create_stocks_with, bind.
    now rewrite stocks_loop_skip.
  - intros warehouse_id date.
    unfold Market.create_stocks, create_stocks_with, bind.
    now rewrite stocks_loop_skip.
  - unfold Seller.create_prices, create_prices_with; now apply prices_loop_skip.
  - unfold Market.create_prices, create_prices_with; now apply prices_loop_skip.
Qed.

Lemma record_outside_catalog_ignored_witness :
  let a := {| Kod := "A"; Kolichestvo := "5"; Tsena := "10.00" |} in
  let z := {| Kod := "Z"; Kolichestvo := "n/a"; Tsena := "-" |} in
  Seller.create_stocks [a; z] ["A"; "B"] =
    Ok ([Seller.stock_entry "A" 5; Seller.stock_entry "B" 0], ["B"]) /\
  Market.create_prices [a; z] ["A"; "B"] = Market.create_prices [a] ["A"; "B"].
Proof.
  intros a z.
  assert (Hno : ~ In (Kod z) ["A"; "B"]) by (simpl; intuition discriminate).
  destruct (record_outside_catalog_ignored [a] z [] ["A"; "B"] Hno)
    as (Hs & _ & _ & Hp).
  split; [exact (eq_trans Hs eq_refl) | exact Hp].
Defined.

(** X6.  Whatever the catalog list, ids repeated or not, [create_stocks]
    returns as many updates as the list has elements, and their ids are the
    elements of the list, each as often as the list has it. *)
Theorem create_stocks_ids_any_catalog (R : list watch) (C : list string) :
  (forall stocks C',
     Seller.create_stocks R C = Ok (stocks, C') ->
     Permutation (map Seller.offer_id stocks) C /\ length stocks = length C)
  /\
  (forall warehouse_id date stocks C',
     Market.create_stocks R warehouse_id date C = Ok (stocks, C') ->
     Permutation (map Market.sku stocks) C /\ length stocks = length C).
Proof.
  split.
  - intros stocks C' H.
    destruct (create_stocks_with_complete Seller.stock_entry Seller.offer_id
                (fun _ _ => eq_refl) _ _ _ _ H) as (m & _ & Hp & _).
    split; [exact Hp|].
    apply Permutation_length in Hp; now rewrite length_map in Hp.
  - intros warehouse_id date stocks C' H.
    destruct (create_stocks_with_complete (Market.stock_entry warehouse_id date)
                Market.sku (fun _ _ => eq_refl) _ _ _ _ H) as (m & _ & Hp & _).
    split; [exact Hp|].
    apply Permutation_length in Hp; now rewrite length_map in Hp.
Qed.

Lemma create_stocks_ids_any_catalog_witness :
  let R := [ {| Kod := "A"; Kolichestvo := "5"; Tsena := "10.00" |} ] in
  Permutation (map Seller.offer_id
                 [Seller.stock_entry "A" 5; Seller.stock_entry "A" 0])
              ["A"; "A"].
Proof.
  intros R.
  exact (proj1 (proj1 (create_stocks_ids_any_catalog R ["A"; "A"])
                  [Seller.stock_entry "A" 5; Seller.stock_entry "A" 0] ["A"]
                  eq_refl)).
Defined.

Lemma create_stocks_with_leftover {S : Type} (stock_entry : string -> Z -> S)
    (skey : S -> string) (Hkey : forall x n, skey (stock_entry x n) = x)
    (R : list watch) (C : list string) (stocks : list S) (C' : list string) :
  NoDup C ->
  create_stocks_with stock_entry R C = Ok (stocks, C') ->
  let unmatched :=
    filter (fun id => negb (existsb (fun w => String.eqb (Kod w) id) R)) C in
  C' = unmatched /\
  exists matched,
    stocks = matched ++ map (fun id => stock_entry id 0) unmatched /\
    Forall (fun u => In (skey u) C /\ exists w, In w R /\ skey u = Kod w) matched.
Proof.
  intros Hnd H unmatched.
  apply create_stocks_with_inv in H; destruct H as (m & Hl & ->).
  pose proof (stocks_loop_leftover_filter stock_entry _ _ _ _ Hnd Hl) as E.
  fold unmatched in E; split; [exact E|].
  exists m; split; [now rewrite E|].
  pose proof (stocks_loop_perm stock_entry skey Hkey _ _ _ _ Hl) as Hp.
  pose proof (stocks_loop_from_feed stock_entry _ _ _ _ Hl) as Hf.
  apply Forall_forall; intros u Hu; split.
  - apply (Permutation_in _ Hp), in_or_app; left; now apply in_map.
  - rewrite Forall_forall in Hf.
    destruct (Hf u Hu) as (w & n & Hw & _ & ->).
    exists w; split; [exact Hw | apply Hkey].
Qed.

(** X7.  For a catalog list without repetition, the list [create_stocks]
    leaves to its caller holds the ids that are the code of no record, in
    catalog order, and the zero entries that end the result are the entries
    for those ids in that order; the entries before them carry ids that are
    both in the catalog and in the feed. *)
Theorem create_stocks_leftover_order (R : list watch) (C : list string) :
  NoDup C ->
  let unmatched :=
    filter (fun id => negb (existsb (fun w => String.eqb (Kod w) id) R)) C in
  (forall stocks C',
     Seller.create_stocks R C = Ok (stocks, C') ->
     C' = unmatched /\
     exists matched,
       stocks = matched ++ map (fun id => Seller.stock_entry id 0) unmatched /\
       Forall (fun u => In (Seller.offer_id u) C /\
                        exists w, In w R /\ Seller.offer_id u = Kod w) matched)
  /\
  (forall warehouse_id date stocks C',
     Market.create_stocks R warehouse_id date C = Ok (stocks, C') ->
     C' = unmatched /\
     exists matched,
       stocks = matched ++
                map (fun id => Market.stock_entry warehouse_id date id 0) unmatched /\
       Forall (fun u => In (Market.sku u) C /\
                        exists w, In w R /\ Market.sku u = Kod w) matched).
Proof.
  intros Hnd unmatched; split.
  - intros stocks C' H.
    exact (create_stocks_with_leftover Seller.stock_entry Seller.offer_id
             (fun _ _ => eq_refl) _ _ _ _ Hnd H).
  - intros warehouse_id date stocks C' H.
    exact (create_stocks_with_leftover (Market.stock_entry warehouse_id date)
             Market.sku (fun _ _ => eq_refl) _ _ _ _ Hnd H).
Qed.

Lemma create_stocks_leftover_order_witness :
  let R := [ {| Kod := "C"; Kolichestvo := "5"; Tsena := "10.00" |} ] in
  Seller.create_stocks R ["D"; "C"; "B"; "A"] =
    Ok ([Seller.stock_entry "C" 5; Seller.stock_entry "D" 0;
         Seller.stock_entry "B" 0; Seller.stock_entry "A" 0], ["D"; "B"; "A"]) /\
  ["D"; "B"; "A"] =
    filter (fun id => negb (existsb (fun w => String.eqb (Kod w) id) R))
           ["D"; "C"; "B"; "A"].
Proof.
  intros R.
  assert (Hnd : NoDup ["D"; "C"; "B"; "A"]) by nodup_strings.
  split; [reflexivity|].
  exact (proj1 (proj1 (create_stocks_leftover_order R ["D"; "C"; "B"; "A"] Hnd)
                  [Seller.stock_entry "C" 5; Seller.stock_entry "D" 0;
                   Seller.stock_entry "B" 0; Seller.stock_entry "A" 0]
                  ["D"; "B"; "A"] eq_refl)).
Defined.

(** X8.  For a catalog list without repetition [create_stocks] returns
    exactly when the quantity of every record that is the first with its
    code, the code in the catalog, is readable; a later record with the same
    code never makes it raise, whatever its quantity. *)
Theorem create_stocks_returns_iff (R : list watch) (C : list string) :
  NoDup C ->
  let readable :=
    forall R1 w R2, R = R1 ++ w :: R2 -> In (Kod w) C ->
      (forall w', In w' R1 -> Kod w' <> Kod w) ->
      exists n, stock_count (Kolichestvo w) = Ok n in
  ((exists stocks C', Seller.create_stocks R C = Ok (stocks, C')) <-> readable)
  /\
  (forall warehouse_id date,
     (exists stocks C',
        Market.create_stocks R warehouse_id date C = Ok (stocks, C')) <->
     readable).
Proof.
  intros Hnd readable.
  assert (Hgen : forall (S : Type) (entry : string -> Z -> S),
            (exists stocks C', create_stocks_with entry R C = Ok (stocks, C')) <->
            readable).
  { intros S entry; split.
    - intros (stocks & C' & H) R1 w R2 -> Hin Hfirst.
      destruct (create_stocks_with_first entry _ _ _ _ _ _ Hin Hfirst H)
        as [n [Hn _]]; now exists n.
    - intros Hq.
      destruct (stocks_loop_returns_first entry R C Hnd Hq) as (m & ids' & Hl).
      unfold create_stocks_with, bind, current, ret; rewrite Hl; eauto. }
  split; [apply Hgen | intros warehouse_id date; apply Hgen].
Qed.

Lemma create_stocks_returns_iff_witness :
  let a := {| Kod := "A"; Kolichestvo := "5"; Tsena := "10.00" |} in
  let a' := {| Kod := "A"; Kolichestvo := "sold out"; Tsena := "10.00" |} in
  stock_count (Kolichestvo a') = Raise ValueError /\
  exists n, stock_count (Kolichestvo a) = Ok n.
Proof.
  intros a a'; split; [reflexivity|].
  assert (Hnd : NoDup ["A"]) by nodup_strings.
  assert (Hrun : exists stocks C',
            Seller.create_stocks [a; a'] ["A"] = Ok (stocks, C'))
    by (do 2 eexists; reflexivity).
  exact (proj1 (proj1 (create_stocks_returns_iff [a; a'] ["A"] Hnd)) Hrun
           [] a [a'] eq_refl (or_introl eq_refl) ltac:(intros w' [])).
Defined.

Lemma Forall2_Ok_map {A B : Type} (f : A -> B) (l : list A) (l' : list B) :
  Forall2 (fun a b => Ok (f a) = Ok b) l l' -> l' = map f l.
Proof.
  induction 1 as [|a b l l' Hab _ IH]; simpl; [reflexivity|].
  injection Hab as <-; now rewrite IH.
Qed.

Lemma map_code_filter (C : list string) (R : list watch) :
  map Kod (filter (fun w => existsb (String.eqb (Kod w)) C) R) =
  filter (fun code => existsb (String.eqb code) C) (map Kod R).
Proof.
  induction R as [|w rest IH]; simpl; [reflexivity|].
  destruct (existsb (String.eqb (Kod w)) C); simpl; now rewrite IH.
Qed.

(** X9.  The single-store [create_prices] never raises and leaves the
    catalog list as it is.  The ids of the updates it returns are the codes
    of the feed that are in the catalog, in feed order and as often as the
    feed has them; each price is [price_conversion] of the record's price, and
    the other three fields are constant. *)
Theorem seller_create_prices_ids (R : list watch) (C : list string) :
  let matching := filter (fun w => existsb (String.eqb (Kod w)) C) R in
  exists prices,
    Seller.create_prices R C = Ok (prices, C) /\
    map Seller.price_offer_id prices =
      filter (fun code => existsb (String.eqb code) C) (map Kod R) /\
    map Seller.price prices = map (fun w => price_conversion (Tsena w)) matching /\
    (length prices <= length R)%nat /\
    Forall (fun p => In (Seller.price_offer_id p) C /\
                     In (Seller.price_offer_id p) (map Kod R) /\
                     Seller.auto_action_enabled p = "UNKNOWN" /\
                     Seller.currency_code p = "RUB" /\
                     Seller.old_price p = "0") prices.
Proof.
  intros matching.
  destruct (seller_create_prices_returns R C) as [prices Hp].
  exists prices; split; [exact Hp|].
  apply prices_loop_spec in Hp; destruct Hp as [_ HF]; fold matching in HF.
  unfold Seller.price_entry in HF; apply Forall2_Ok_map in HF.
  assert (Hids : map Seller.price_offer_id prices = map Kod matching)
    by (rewrite HF, map_map; reflexivity).
  split; [rewrite Hids; apply map_code_filter|].
  split; [rewrite HF, map_map; reflexivity|].
  split.
  - rewrite HF, length_map; apply filter_length_le.
  - rewrite HF; apply Forall_forall; intros p Hin.
    apply in_map_iff in Hin; destruct Hin as (w & <- & Hw); simpl.
    apply filter_In in Hw; destruct Hw as [Hw Hc].
    apply existsb_eqb_In in Hc.
    split; [exact Hc|]; split; [now apply in_map | auto].
Qed.

Lemma market_price_entry_ok (w : watch) :
  PyText.has_digit (PyText.before_first "."%char (Tsena w)) = true ->
  Z.of_nat (String.length (price_conversion (Tsena w))) <= PyText.max_str_digits ->
  Market.price_entry w =
    Ok {| Market.id := Kod w;
          Market.price :=
            {| Market.value := PyText.digits_value (price_conversion (Tsena w));
               Market.currencyId := "RUR" |} |}.
Proof.
  intros Hd Hlen; unfold Market.price_entry.
  rewrite price_value_spec, (proj2 (Z.leb_le _ _) Hlen); unfold parse_spec.
  rewrite price_conversion_before_dot.
  destruct (PyText.sub_non_digits (PyText.before_first "."%char (Tsena w)))
    as [|c r] eqn:E; [|reflexivity].
  apply sub_non_digits_empty in E; congruence.
Qed.

Lemma market_price_entry_bad (w : watch) :
  PyText.has_digit (PyText.before_first "."%char (Tsena w)) = false \/
  PyText.max_str_digits < Z.of_nat (String.length (price_conversion (Tsena w))) ->
  forall p, Market.price_entry w <> Ok p.
Proof.
  intros Hbad p; unfold Market.price_entry; rewrite price_value_spec.
  destruct (Z.leb_spec (Z.of_nat (String.length (price_conversion (Tsena w))))
              PyText.max_str_digits) as [Hle|Hgt]; [|discriminate].
  destruct Hbad as [Hd|Hlen]; [|lia].
  unfold parse_spec; rewrite (proj2 (sub_non_digits_empty _) Hd); discriminate.
Qed.

(** X10.  The multi-campaign [create_prices] raises ([ValueError], from
    [int]) exactly when some record whose code is in the catalog has a price
    text with no digit before its first ['.'], or with more than 4300 digits
    there; the records outside the catalog never matter. *)
Theorem market_create_prices_raises (R : list watch) (C : list string) :
  Market.create_prices R C = Raise ValueError <->
  exists w, In w R /\ In (Kod w) C /\
    (PyText.has_digit (PyText.before_first "."%char (Tsena w)) = false \/
     PyText.max_str_digits <
       Z.of_nat (String.length (price_conversion (Tsena w)))).
Proof.
  split.
  - intros H; apply prices_loop_raise_inv in H.
    destruct H as (w & Hw & Hin & Hbad); exists w; split; [exact Hw|].
    split; [exact Hin|].
    destruct (PyText.has_digit (PyText.before_first "."%char (Tsena w))) eqn:E;
      [|now left].
    destruct (Z.le_gt_cases
                (Z.of_nat (String.length (price_conversion (Tsena w))))
                PyText.max_str_digits) as [Hle|Hgt]; [|right; lia].
    now destruct (Hbad _ (market_price_entry_ok w E Hle)).
  - intros (w & Hw & Hin & Hd).
    apply (prices_loop_raise Market.price_entry R C w Hw Hin).
    now apply market_price_entry_bad.
Qed.

(** X11.  When every record whose code is in the catalog has between 1 and
    4300 digits before the first ['.'] of its price, the multi-campaign
    [create_prices] returns, with the catalog list unchanged: one update per
    such record, in feed order, whose value is the base-10 reading of
    [price_conversion] of the price and whose currency is ["RUR"]. *)
Theorem market_create_prices_values (R : list watch) (C : list string) :
  (forall w, In w R -> In (Kod w) C ->
     PyText.has_digit (PyText.before_first "."%char (Tsena w)) = true /\
     Z.of_nat (String.length (price_conversion (Tsena w))) <=
       PyText.max_str_digits) ->
  Market.create_prices R C =
    Ok (map (fun w =>
               {| Market.id := Kod w;
                  Market.price :=
                    {| Market.value :=
                         PyText.digits_value (price_conversion (Tsena w));
                       Market.currencyId := "RUR" |} |})
            (filter (fun w => existsb (String.eqb (Kod w)) C) R), C).
Proof.
  intros Hd.
  destruct (prices_loop_returns Market.price_entry R C) as [prices Hp].
  { intros w Hw Hin; destruct (Hd w Hw Hin) as [H1 H2].
    eexists; exact (market_price_entry_ok w H1 H2). }
  unfold Market.create_prices, create_prices_with; rewrite Hp.
  apply prices_loop_spec in Hp; destruct Hp as [_ HF].
  do 2 f_equal.
  assert (Hall : Forall (fun w =>
                   PyText.has_digit (PyText.before_first "."%char (Tsena w)) = true /\
                   Z.of_nat (String.length (price_conversion (Tsena w))) <=
                     PyText.max_str_digits)
                   (filter (fun w => existsb (String.eqb (Kod w)) C) R)).
  { apply Forall_forall; intros w Hw; apply filter_In in Hw.
    apply Hd; [tauto | now apply existsb_eqb_In]. }
  revert Hall; induction HF as [|w p l l' Hwp _ IH]; intros Hall; [reflexivity|].
  apply Forall_cons_iff in Hall; destruct Hall as [[Hw1 Hw2] Hall].
  rewrite (market_price_entry_ok w Hw1 Hw2) in Hwp; injection Hwp as <-.
  simpl; now rewrite IH.
Qed.

Lemma market_create_prices_values_witness :
  let R := [ {| Kod := "A"; Kolichestvo := "5"; Tsena := "5'990.00 руб." |};
             {| Kod := "Z"; Kolichestvo := "1"; Tsena := "" |} ] in
  Market.create_prices R ["A"] =
    Ok ([ {| Market.id := "A";
             Market.price := {| Market.value := 5990;
                                Market.currencyId := "RUR" |} |} ], ["A"]).
Proof.
  intros R.
  refine (eq_trans (market_create_prices_values R ["A"] _) eq_refl).
  intros w [<-|[<-|[]]] Hin.
  - split; [reflexivity | vm_compute; discriminate].
  - simpl in Hin; destruct Hin as [E|[]]; discriminate E.
Defined.

Lemma Forall2_join {A B C : Type} (R1 : A -> B -> Prop) (R2 : A -> C -> Prop)
    (l : list A) (bs : list B) (cs : list C) :
  Forall2 R1 l bs -> Forall2 R2 l cs ->
  Forall2 (fun b c => exists a, R1 a b /\ R2 a c) bs cs.
Proof.
  intros H1; revert cs; induction H1 as [|a b l bs Hab _ IH]; intros cs H2;
    inversion H2; subst; constructor; eauto.
Qed.

(** X13.  The two files' [create_prices] agree where the multi-campaign one
    returns: the updates pair off in order, with the same id, and the value
    of the multi-campaign update is [int] of the price text the single-store
    update carries. *)
Theorem create_prices_files_agree (R : list watch) (C : list string)
    (market_prices : list Market.price_item) (C' : list string) :
  Market.create_prices R C = Ok (market_prices, C') ->
  exists seller_prices,
    Seller.create_prices R C = Ok (seller_prices, C) /\
    C' = C /\
    Forall2 (fun s m =>
               Seller.price_offer_id s = Market.id m /\
               PyText.int (Seller.price s) = Some (Market.value (Market.price m)) /\
               Market.currencyId (Market.price m) = "RUR")
            seller_prices market_prices.
Proof.
  intros Hm.
  destruct (seller_create_prices_returns R C) as [sp Hs].
  exists sp; split; [exact Hs|].
  apply prices_loop_spec in Hm; destruct Hm as [-> HFm].
  apply prices_loop_spec in Hs; destruct Hs as [_ HFs].
  split; [reflexivity|].
  eapply Forall2_impl; [|exact (Forall2_join _ _ _ _ _ HFs HFm)].
  intros s m (w & Hsw & Hmw); simpl in *.
  injection Hsw as <-; unfold Market.price_entry in Hmw.
  unfold price_value in Hmw; simpl.
  destruct (PyText.int (price_conversion (Tsena w))) as [v|]; [|discriminate].
  injection Hmw as <-; auto.
Qed.

Lemma create_prices_files_agree_witness :
  let R := [ {| Kod := "A"; Kolichestvo := "5"; Tsena := "007.50" |} ] in
  exists seller_prices,
    Seller.create_prices R ["A"] = Ok (seller_prices, ["A"]) /\
    map Seller.price seller_prices = ["007"].
Proof.
  intros R.
  destruct (create_prices_files_agree R ["A"]
              [ {| Market.id := "A";
                   Market.price := {| Market.value := 7;
                                      Market.currencyId := "RUR" |} |} ]
              ["A"] eq_refl) as (sp & Hs & _).
  exists sp; split; [exact Hs|].
  vm_compute in Hs; injection Hs as <-; reflexivity.
Defined.

(** ** Text: more on [price_conversion] and on quantities *)

Lemma all_digits_before_dot (t : string) :
  PyText.all_digits t = true -> PyText.before_first "."%char t = t.
Proof.
  unfold PyText.all_digits; induction t as [|c r IH]; simpl; [reflexivity|].
  intros H; apply andb_true_iff in H; destruct H as [Hc Hr].
  rewrite (digit_not_char c "."%char Hc eq_refl); now rewrite IH.
Qed.

Lemma all_digits_sub_non_digits (t : string) :
  PyText.all_digits t = true -> PyText.sub_non_digits t = t.
Proof.
  unfold PyText.all_digits; induction t as [|c r IH]; simpl; [reflexivity|].
  intros H; apply andb_true_iff in H; destruct H as [Hc Hr].
  rewrite Hc; now rewrite IH.
Qed.

Lemma sub_non_digits_length (t : string) :
  (String.length (PyText.sub_non_digits t) <= String.length t)%nat.
Proof.
  induction t as [|c r IH]; simpl; [lia|].
  destruct (PyText.is_digit c); simpl; lia.
Qed.

Lemma before_first_length (sep : ascii) (t : string) :
  (String.length (PyText.before_first sep t) <= String.length t)%nat.
Proof.
  induction t as [|c r IH]; simpl; [lia|].
  destruct (Ascii.eqb c sep); simpl; lia.
Qed.

(** X14.  [price_conversion] returns ASCII digits only, never more
    characters than it was given, and applying it to its own result changes
    nothing. *)
Theorem price_conversion_idempotent (s : string) :
  PyText.all_digits (price_conversion s) = true /\
  (String.length (price_conversion s) <= String.length s)%nat /\
  price_conversion (price_conversion s) = price_conversion s.
Proof.
  rewrite !price_conversion_before_dot.
  pose proof (sub_non_digits_all_digits (PyText.before_first "."%char s)) as Hd.
  split; [exact Hd|]; split.
  - pose proof (sub_non_digits_length (PyText.before_first "."%char s)).
    pose proof (before_first_length "."%char s); lia.
  - rewrite (all_digits_before_dot _ Hd); now apply all_digits_sub_non_digits.
Qed.

Lemma int_minus_digits (d : string) :
  PyText.all_digits d = true -> d <> EmptyString ->
  Z.of_nat (String.length d) <= PyText.max_str_digits ->
  PyText.int (String "-"%char d) = Some (- PyText.digits_value d).
Proof.
  unfold PyText.all_digits, PyText.digits_value; intros Hd Hne Hlen.
  rewrite int_plain
    by (cbn [list_ascii_of_string forallb]; now rewrite forallb_digit_plain).
  cbn [list_ascii_of_string]; unfold PyText.ascii_int; cbn [PyText.rstrip].
  rewrite (rstrip_no_space _ (forallb_digit_no_space _ Hd)).
  pose proof (digits_us_digits _ Hd 0 false) as E; rewrite app_nil_r in E.
  pose proof (digit_count_digits _ Hd) as Ecount.
  rewrite length_list_ascii in Ecount.
  destruct d as [|c r]; [congruence|].
  cbn [list_ascii_of_string] in *.
  cbn [PyText.lstrip].
  change (PyText.is_space "-"%char) with false; cbv iota.
  change (Ascii.eqb "-"%char "-"%char) with true; cbv iota.
  unfold PyText.literal; rewrite E, Ecount, (proj2 (Z.leb_le _ _) Hlen).
  reflexivity.
Qed.

(** X15.  [create_stocks] does not guard the sign: for the first record
    with its code, the code in the catalog, a quantity text made of a minus
    sign and up to 4300 digits is accepted, and the update carries the
    negated value, a negative count unless the digits are all zero. *)
Theorem negative_quantity_accepted (R1 : list watch) (w : watch)
    (R2 : list watch) (C : list string) (d : string) :
  In (Kod w) C -> (forall w', In w' R1 -> Kod w' <> Kod w) ->
  Kolichestvo w = String "-"%char d ->
  PyText.all_digits d = true -> d <> EmptyString ->
  Z.of_nat (String.length d) <= PyText.max_str_digits ->
  stock_count (Kolichestvo w) = Ok (- PyText.digits_value d) /\
  - PyText.digits_value d <= 0 /\
  (forall stocks C',
     Seller.create_stocks (R1 ++ w :: R2) C = Ok (stocks, C') ->
     In (Seller.stock_entry (Kod w) (- PyText.digits_value d)) stocks) /\
  (forall warehouse_id date stocks C',
     Market.create_stocks (R1 ++ w :: R2) warehouse_id date C = Ok (stocks, C') ->
     In (Market.stock_entry warehouse_id date (Kod w) (- PyText.digits_value d))
        stocks).
Proof.
  intros Hin Hfirst Hq Hd Hne Hlen.
  assert (Hc : stock_count (Kolichestvo w) = Ok (- PyText.digits_value d)).
  { rewrite Hq; unfold stock_count.
    change (String.eqb (String "-"%char d) ">10") with false.
    change (String.eqb (String "-"%char d) "1") with false.
    cbv iota; now rewrite int_minus_digits. }
  split; [exact Hc|].
  split; [pose proof (digits_value_nonneg d Hd); lia|].
  split.
  - intros stocks C' H.
    destruct (create_stocks_with_first Seller.stock_entry _ _ _ _ _ _ Hin Hfirst H)
      as [n [Hn Hm]].
    rewrite Hc in Hn; now injection Hn as <-.
  - intros warehouse_id date stocks C' H.
    destruct (create_stocks_with_first (Market.stock_entry warehouse_id date)
                _ _ _ _ _ _ Hin Hfirst H) as [n [Hn Hm]].
    rewrite Hc in Hn; now injection Hn as <-.
Qed.

Lemma negative_quantity_accepted_witness :
  let w := {| Kod := "A"; Kolichestvo := "-3"; Tsena := "10.00" |} in
  Seller.create_stocks [w] ["A"] = Ok ([Seller.stock_entry "A" (-3)], []) /\
  stock_count "-3" = Ok (- PyText.digits_value "3").
Proof.
  intros w; split; [reflexivity|].
  exact (proj1 (negative_quantity_accepted [] w [] ["A"] "3"
                  (or_introl eq_refl) ltac:(intros w' []) eq_refl eq_refl
                  ltac:(discriminate) ltac:(vm_compute; discriminate))).
Defined.

(** ** [divide]: positions and edges *)

(** X16.  For a positive size [n], element [j] of batch [i] of [divide] is
    element [i * n + j] of the list: the batches cut the list at the
    multiples of [n] and keep the order. *)
Theorem divide_index {A : Type} (items : list A) (n : Z)
    (batches : list (list A)) :
  0 < n -> divide items n = Ok batches ->
  forall (i j : nat) (b : list A),
    nth_error batches i = Some b -> Z.of_nat j < n ->
    nth_error b j = nth_error items (i * Z.to_nat n + j).
Proof.
  intros Hn Hd i j b Hb Hj.
  assert (En : n = Z.of_nat (Z.to_nat n)) by lia.
  rewrite En, divide_positive in Hd by lia.
  injection Hd as <-.
  rewrite nth_error_map, nth_error_seq in Hb.
  destruct (Nat.ltb_spec i
              (Z.to_nat ((Z.of_nat (length items) + Z.of_nat (Z.to_nat n) - 1) /
                         Z.of_nat (Z.to_nat n)))) as [_|]; [|discriminate].
  injection Hb as <-.
  rewrite nth_error_firstn, nth_error_skipn.
  destruct (Nat.ltb_spec j (Z.to_nat n)) as [_|]; [reflexivity | lia].
Qed.

Lemma divide_index_witness :
  nth_error [30; 40] 1 = nth_error [10; 20; 30; 40; 50] (1 * Z.to_nat 2 + 1).
Proof.
  exact (divide_index [10; 20; 30; 40; 50] 2 [[10; 20]; [30; 40]; [50]]
           eq_refl eq_refl 1%nat 1%nat [30; 40] eq_refl eq_refl).
Defined.

(** X17.  On the empty list [divide] yields no batch for every size but 0,
    so no upload request follows; a non-empty list no longer than the size
    comes back as one batch, the list itself. *)
Theorem divide_edges {A : Type} (items : list A) (n : Z) :
  (n <> 0 -> divide (@nil A) n = Ok []) /\
  (items <> [] -> Z.of_nat (length items) <= n -> divide items n = Ok [items]).
Proof.
  split.
  - intros Hn; unfold divide, py_range, range_len; simpl length.
    destruct (Z.eqb_spec n 0) as [|_]; [contradiction|].
    destruct (Z.ltb_spec 0 n); reflexivity.
  - intros Hne Hlen.
    assert (Hpos : (0 < length items)%nat) by (destruct items; [congruence | simpl; lia]).
    assert (En : n = Z.of_nat (Z.to_nat n)) by lia.
    rewrite En, divide_positive by lia.
    pose proof (ceil_bounds (Z.of_nat (length items)) (Z.of_nat (Z.to_nat n))
                  ltac:(lia) ltac:(lia)) as Hc.
    cbv zeta in Hc; destruct Hc as (Hc0 & Hc1).
    replace ((Z.of_nat (length items) + Z.of_nat (Z.to_nat n) - 1) /
             Z.of_nat (Z.to_nat n)) with 1 by nia.
    simpl; rewrite firstn_all2 by lia; reflexivity.
Qed.

Lemma divide_edges_witness :
  divide (@nil Z) 100 = Ok [] /\ divide [1; 2; 3] 100 = Ok [[1; 2; 3]].
Proof.
  split.
  - exact (proj1 (divide_edges (@nil Z) 100) ltac:(discriminate)).
  - exact (proj2 (divide_edges [1; 2; 3] 100) ltac:(discriminate)
             ltac:(simpl; lia)).
Defined.

(** ** The upload drivers of seller.py *)

Lemma seller_prices_after_stocks (R : list watch) (C : list string)
    (stocks : list Seller.stock_item) (C' : list string) :
  NoDup C ->
  Seller.create_stocks R C = Ok (stocks, C') ->
  Seller.create_prices R C' = Ok ([], C').
Proof.
  intros Hnd H.
  apply create_stocks_with_inv in H; destruct H as (m & Hl & _).
  destruct (stocks_loop_leftover Seller.stock_entry Seller.offer_id
              (fun _ _ => eq_refl) _ _ _ _ Hnd Hl) as [_ Hleft].
  destruct (seller_create_prices_returns R C') as [prices Hp].
  rewrite Hp; pose proof (prices_loop_spec _ _ _ _ _ Hp) as [_ HF].
  assert (E : filter (fun w => existsb (String.eqb (Kod w)) C') R = []).
  { clear -Hleft; induction R as [|w r IH]; simpl; [reflexivity|].
    rewrite (proj2 (existsb_eqb_not_In (Kod w) C') (Hleft w (or_introl eq_refl))).
    apply IH; intros w' Hw'; apply Hleft; now right. }
  rewrite E in HF; inversion HF; reflexivity.
Qed.

(** X18.  For a catalog list without repetition, [main] of seller.py never
    calls [update_price]: once the stock batches are sent (or the first
    exception has ended the block) nothing more is requested, because the
    price pass runs on the list the stock pass has emptied of every feed
    code.  What [main] does is what sending the stocks in batches of 100
    does, whatever [update_price] is. *)
Theorem main_sends_no_price (World HttpError : Type)
    (update_stocks : list Seller.stock_item -> World -> World * option HttpError)
    (update_price : list Seller.price_item -> World -> World * option HttpError)
    (R : list watch) (C : list string) (w : World) :
  NoDup C ->
  (forall stocks C',
     Seller.create_stocks R C = Ok (stocks, C') ->
     main_body World HttpError update_stocks update_price R C w =
     send_divided World HttpError update_stocks stocks 100 w)
  /\
  (forall update_price',
     main_body World HttpError update_stocks update_price R C w =
     main_body World HttpError update_stocks update_price' R C w).
Proof.
  intros Hnd.
  assert (Hmain : forall up stocks C',
            Seller.create_stocks R C = Ok (stocks, C') ->
            main_body World HttpError update_stocks up R C w =
            send_divided World HttpError update_stocks stocks 100 w).
  { intros up stocks C' H; unfold main_body; rewrite H.
    rewrite (seller_prices_after_stocks R C stocks C' Hnd H).
    destruct (send_divided World HttpError update_stocks stocks 100 w)
      as [w1 [f|]]; reflexivity. }
  split; [apply Hmain|].
  intros update_price'.
  destruct (Seller.create_stocks R C) as [[stocks C']|e] eqn:E.
  - now rewrite (Hmain update_price stocks C'), (Hmain update_price' stocks C').
  - unfold main_body; now rewrite E.
Qed.

Lemma main_sends_no_price_witness :
  let R := [ {| Kod := "A"; Kolichestvo := "5"; Tsena := "100.00" |} ] in
  let log_stocks := fun (b : list Seller.stock_item) (n : nat * nat) =>
                      ((Datatypes.S (fst n), snd n), @None unit) in
  let log_price := fun (b : list Seller.price_item) (n : nat * nat) =>
                     ((fst n, Datatypes.S (snd n)), @None unit) in
  main_body (nat * nat) unit log_stocks log_price R ["A"; "B"] (0%nat, 0%nat) =
    ((1%nat, 0%nat), None).
Proof.
  intros R log_stocks log_price.
  assert (Hnd : NoDup ["A"; "B"]) by nodup_strings.
  refine (eq_trans
            (proj1 (main_sends_no_price (nat * nat) unit log_stocks log_price
                      R ["A"; "B"] (0%nat, 0%nat) Hnd)
               [Seller.stock_entry "A" 5; Seller.stock_entry "B" 0] ["B"] eq_refl)
            eq_refl).
Defined.

(** X19.  When [upload_stocks] returns, its first result is the sublist of
    the updates with a non-zero stock: none of the entries synthesized for
    unmatched ids is in it, and each of its entries comes from a feed record
    whose quantity text is not ["1"] and reads as that entry's stock. *)
Theorem upload_stocks_not_empty (World HttpError : Type)
    (update_stocks : list Seller.stock_item -> World -> World * option HttpError)
    (R : list watch) (C : list string) (w w' : World)
    (nonzero stocks : list Seller.stock_item) :
  upload_stocks World HttpError update_stocks R C w = (w', inr (nonzero, stocks)) ->
  (exists C', Seller.create_stocks R C = Ok (stocks, C')) /\
  nonzero = not_empty stocks /\
  Forall (fun u =>
            Seller.stock u <> 0 /\ In u stocks /\
            exists r, In r R /\ Kod r = Seller.offer_id u /\
                      Kolichestvo r <> "1" /\
                      stock_count (Kolichestvo r) = Ok (Seller.stock u))
         nonzero.
Proof.
  unfold upload_stocks; intros H.
  destruct (Seller.create_stocks R C) as [[st C']|e] eqn:Es;
    [|discriminate].
  destruct (send_divided World HttpError update_stocks st 100 w) as [w1 [f|]];
    [discriminate|].
  injection H as _ <- <-.
  split; [now exists C'|]; split; [reflexivity|].
  apply create_stocks_with_inv in Es; destruct Es as (m & Hl & ->).
  pose proof (stocks_loop_from_feed Seller.stock_entry _ _ _ _ Hl) as Hf.
  rewrite Forall_forall in Hf.
  apply Forall_forall; intros u Hu; unfold not_empty in Hu.
  apply filter_In in Hu; destruct Hu as [Hin Hnz].
  apply negb_true_iff, Z.eqb_neq in Hnz.
  split; [exact Hnz|]; split; [exact Hin|].
  apply in_app_or in Hin; destruct Hin as [Hin|Hin].
  - destruct (Hf u Hin) as (r & n & Hr & Hn & ->); simpl in *.
    exists r; split; [exact Hr|]; split; [reflexivity|]; split; [|exact Hn].
    intros E1; rewrite E1 in Hn; vm_compute in Hn; congruence.
  - apply in_map_iff in Hin; destruct Hin as (x & <- & _).
    now simpl in Hnz.
Qed.

Lemma upload_stocks_not_empty_witness :
  let R := [ {| Kod := "A"; Kolichestvo := ">10"; Tsena := "100.00" |};
             {| Kod := "B"; Kolichestvo := "1"; Tsena := "50.00" |} ] in
  let stocks := [Seller.stock_entry "A" 100; Seller.stock_entry "B" 0;
                 Seller.stock_entry "C" 0] in
  [Seller.stock_entry "A" 100] = not_empty stocks.
Proof.
  intros R stocks.
  exact (proj1 (proj2 (upload_stocks_not_empty nat unit
                         (fun _ n => (Datatypes.S n, None)) R ["A"; "B"; "C"]
                         0%nat 1%nat [Seller.stock_entry "A" 100] stocks
                         eq_refl))).
Defined.

(** X20.  [upload_prices] of seller.py raises no [ValueError]: with the
    prices [create_prices] builds it either sends every batch and returns
    those prices, or stops at the first request [update_price] fails, with
    that failure. *)
Theorem upload_prices_outcome (World HttpError : Type)
    (update_price : list Seller.price_item -> World -> World * option HttpError)
    (R : list watch) (C : list string) (w : World) :
  exists prices batches,
    Seller.create_prices R C = Ok (prices, C) /\
    divide prices 1000 = Ok batches /\
    concat batches = prices /\
    match send_all World HttpError update_price batches w with
    | (w', None) =>
        upload_prices World HttpError update_price R C w = (w', inr prices)
    | (w', Some e) =>
        upload_prices World HttpError update_price R C w = (w', inl (Http e))
    end.
Proof.
  destruct (seller_create_prices_returns R C) as [prices Hp].
  pose proof (divide_positive prices 1000 ltac:(lia)) as Hd.
  change (Z.of_nat 1000) with 1000 in Hd.
  exists prices; eexists; split; [exact Hp|]; split; [exact Hd|]; split.
  - rewrite concat_chunks; apply firstn_all2.
    pose proof (ceil_bounds (Z.of_nat (length prices)) 1000 ltac:(lia) ltac:(lia))
      as Hc; cbv zeta in Hc; lia.
  - unfold upload_prices, send_divided; rewrite Hp, Hd.
    now destruct (send_all World HttpError update_price _ w) as [w' [e|]].
Qed.

